(** * all-sports-backend: controllers over a relational store

    A shallow embedding of the three controllers of the backend
    (controllers/authController.js, controllers/categoryController.js and
    controllers/productController.js) together with the part of JavaScript
    and of the persistence gateway they rely on.

    Modelling decisions, stated once:
    - a JavaScript string is the list of its UTF-16 code units;
    - a number is a binary64 value, given by the rational it is, with NaN
      and the two infinities next to the finite ones; a coercion to number
      rounds to the nearest binary64 value, ties to even, so that a
      magnitude of at most 2^-1075 is zero and one beyond the range is
      infinite; [JNum q] is the number written q in the body;
    - the fields of a JSON body are scalars (absent, null, boolean, number,
      string), on every route;
    - a table is a finite map from its auto-increment key to the remaining
      columns; a column keeps the bound parameter as it was sent, the
      column constraints of the example schema are left to the engine;
      strings are compared code unit by code unit;
    - the gateway answers every statement: the rejections a lost
      connection or the engine could raise are not generated; the [catch]
      branch of a controller, answering 500, is taken when bcrypt or
      jsonwebtoken throws;
    - a bcrypt hash is represented by its work factor, its salt and the 72
      bytes of key material bcrypt reads from the password, a signed token
      by its claims and its key (symbolic cryptography); the salt and the
      time of a call are given to it from outside;
    - calls are served concurrently and their statements interleave:
      [reachable] is closed under every statement a controller sends, so
      that what is proved of the reachable worlds holds however the calls
      interleave; the outcome of one call is stated for the call that runs
      from its first statement to its answer with no statement of another
      call in between. *)

From Stdlib Require Import ZArith QArith Lia ZifyBool Strings.String Strings.Ascii.
From stdpp Require Import gmap strings list fin_maps.

Local Open Scope Z_scope.

(** ** JavaScript strings *)

Module Js.

Abbreviation jsstring := (list N).

Fixpoint js (s : string) : jsstring :=
  match s with
  | EmptyString => []
  | String a s' => N_of_ascii a :: js s'
  end.

(** WhiteSpace and LineTerminator code units, the set that
    [String.prototype.trim] strips and that [Number(string)] skips. *)
Definition is_white_space (c : N) : bool :=
  ((9 <=? c) && (c <=? 13) || (c =? 32) || (c =? 160) || (c =? 5760)
   || (8192 <=? c) && (c <=? 8202) || (c =? 8232) || (c =? 8233)
   || (c =? 8239) || (c =? 8287) || (c =? 12288) || (c =? 65279))%N.

Fixpoint trimStart (s : jsstring) : jsstring :=
  match s with
  | c :: s' => if is_white_space c then trimStart s' else s
  | [] => []
  end.

Definition trimEnd (s : jsstring) : jsstring := rev (trimStart (rev s)).

Definition trim (s : jsstring) : jsstring := trimEnd (trimStart s).

(** ** Numbers and the coercion of strings to numbers *)

Inductive number :=
| NaN
| Infinity (negative : bool)
| Finite (q : Q).

Definition decimal_digit (c : N) : option Z :=
  if ((48 <=? c) && (c <=? 57))%N then Some (Z.of_N (c - 48)) else None.

Definition hex_digit (c : N) : option Z :=
  if ((48 <=? c) && (c <=? 57))%N then Some (Z.of_N (c - 48))
  else if ((97 <=? c) && (c <=? 102))%N then Some (Z.of_N (c - 87))
  else if ((65 <=? c) && (c <=? 70))%N then Some (Z.of_N (c - 55))
  else None.

Definition octal_digit (c : N) : option Z :=
  if ((48 <=? c) && (c <=? 55))%N then Some (Z.of_N (c - 48)) else None.

Definition binary_digit (c : N) : option Z :=
  if ((48 <=? c) && (c <=? 49))%N then Some (Z.of_N (c - 48)) else None.

(** The longest run of digits at the head of [s]: its value in the given
    base on top of [acc], the number of digits read, and what follows. *)
Fixpoint scan_digits (base : Z) (digit : N -> option Z) (s : jsstring)
    (acc : Z) (count : Z) : Z * Z * jsstring :=
  match s with
  | c :: s' =>
      match digit c with
      | Some d => scan_digits base digit s' (base * acc + d) (count + 1)
      | None => (acc, count, s)
      end
  | [] => (acc, count, [])
  end.

(** An optional sign; [true] stands for minus. *)
Definition scan_sign (s : jsstring) : bool * jsstring :=
  match s with
  | c :: s' =>
      if (c =? 43)%N then (false, s')
      else if (c =? 45)%N then (true, s')
      else (false, s)
  | [] => (false, [])
  end.

(** digits [. digits] or . digits, at least one digit in all: the digits
    read as one integer, minus the number of fraction digits, the rest. *)
Definition scan_mantissa (s : jsstring) : option (Z * Z * jsstring) :=
  let '(i, ni, r1) := scan_digits 10 decimal_digit s 0 0 in
  match r1 with
  | c :: r2 =>
      if (c =? 46)%N then
        let '(m, nf, r3) := scan_digits 10 decimal_digit r2 i 0 in
        if (ni =? 0) && (nf =? 0) then None else Some (m, - nf, r3)
      else if ni =? 0 then None else Some (i, 0, r1)
  | [] => if ni =? 0 then None else Some (i, 0, [])
  end.

(** e or E, an optional sign, at least one digit. *)
Definition scan_exponent (s : jsstring) : option (Z * jsstring) :=
  match s with
  | c :: r =>
      if ((c =? 101) || (c =? 69))%N then
        let '(neg, r1) := scan_sign r in
        let '(e, n, r2) := scan_digits 10 decimal_digit r1 0 0 in
        if n =? 0 then None else Some (if neg then - e else e, r2)
      else None
  | [] => None
  end.

(** m * 10^e as a rational. *)
Definition decimal_value (m e : Z) : Q :=
  if 0 <=? e then inject_Z (m * 10 ^ e)
  else Qmake m (Z.to_pos (10 ^ (- e))).

(** n / d >= b ^ e, for positive n and d. *)
Definition at_least (b n d e : Z) : bool :=
  if 0 <=? e then d * b ^ e <=? n else d <=? n * b ^ (- e).

(** m * b ^ e as a rational. *)
Definition scaled (b m e : Z) : Q :=
  if 0 <=? e then inject_Z (m * b ^ e) else Qmake m (Z.to_pos (b ^ (- e))).

(** The integer nearest to num / den, the even one of two equally near. *)
Definition round_half_even (num den : Z) : Z :=
  let k := num / den in
  match 2 * (num mod den) ?= den with
  | Lt => k
  | Gt => k + 1
  | Eq => if Z.even k then k else k + 1
  end.

(** The Number value of a real: the nearest binary64 value (53 bits of
    mantissa, exponents of the unit in the last place from -1074 to 971),
    ties to even; zero when the magnitude is at most 2^-1075, infinite
    when it rounds to 2^1024 or more. *)
Definition binary64 (q : Q) : number :=
  let n := Z.abs (Qnum q) in
  let d := Zpos (Qden q) in
  if n =? 0 then Finite 0
  else
    let negative := Qnum q <? 0 in
    let e0 := Z.log2 n - Z.log2 d in
    let e := if at_least 2 n d e0 then e0 else e0 - 1 in
    let ulp := Z.max (e - 52) (-1074) in
    let m := if 0 <=? ulp then round_half_even n (d * 2 ^ ulp)
             else round_half_even (n * 2 ^ (- ulp)) d in
    if m =? 0 then Finite 0
    else if (0 <=? ulp) && (2 ^ 1024 <=? m * 2 ^ ulp) then Infinity negative
    else Finite (scaled 2 (if negative then - m else m) ulp).

Definition same_number (a b : number) : bool :=
  match a, b with
  | Finite x, Finite y => Qeq_bool x y
  | Infinity s, Infinity t => Bool.eqb s t
  | _, _ => false
  end.

Definition StrUnsignedDecimalLiteral (s : jsstring) : number :=
  if decide (s = js "Infinity") then Infinity false
  else
    match scan_mantissa s with
    | Some (m, k, []) => binary64 (decimal_value m k)
    | Some (m, k, r) =>
        match scan_exponent r with
        | Some (e, []) => binary64 (decimal_value m (k + e))
        | _ => NaN
        end
    | None => NaN
    end.

Definition negate (n : number) : number :=
  match n with
  | NaN => NaN
  | Infinity s => Infinity (negb s)
  | Finite q => Finite (- q)
  end.

Definition StrDecimalLiteral (s : jsstring) : number :=
  match s with
  | c :: s' =>
      if (c =? 43)%N then StrUnsignedDecimalLiteral s'
      else if (c =? 45)%N then negate (StrUnsignedDecimalLiteral s')
      else StrUnsignedDecimalLiteral s
  | [] => StrUnsignedDecimalLiteral []
  end.

Definition NonDecimalIntegerLiteral (base : Z) (digit : N -> option Z)
    (s : jsstring) : number :=
  match scan_digits base digit s 0 0 with
  | (v, n, []) => if n =? 0 then NaN else binary64 (inject_Z v)
  | _ => NaN
  end.

(** [Number(s)] for a string [s] (StringToNumber): white space is
    stripped, the empty string is 0, then the whole rest must be a
    numeric literal. *)
Definition StringToNumber (s : jsstring) : number :=
  match trim s with
  | [] => Finite 0
  | [c] => StrDecimalLiteral [c]
  | zero :: c :: r =>
      if ((zero =? 48) && ((c =? 120) || (c =? 88)))%N
      then NonDecimalIntegerLiteral 16 hex_digit r
      else if ((zero =? 48) && ((c =? 111) || (c =? 79)))%N
      then NonDecimalIntegerLiteral 8 octal_digit r
      else if ((zero =? 48) && ((c =? 98) || (c =? 66)))%N
      then NonDecimalIntegerLiteral 2 binary_digit r
      else StrDecimalLiteral (zero :: c :: r)
  end.

(** ** Values of a request *)

Inductive jsval :=
| JUndefined
| JNull
| JBool (b : bool)
| JNum (q : Q)
| JStr (s : jsstring).

Definition ToNumber (v : jsval) : number :=
  match v with
  | JUndefined => NaN
  | JNull => Finite 0
  | JBool b => Finite (if b then 1 else 0)
  | JNum q => binary64 q
  | JStr s => StringToNumber s
  end.

(** The global [isNaN]. *)
Definition isNaN (v : jsval) : bool :=
  match ToNumber v with
  | NaN => true
  | _ => false
  end.

(** ToBoolean, as used by [!v], [v && ...] and [if (v)]. *)
Definition truthy (v : jsval) : bool :=
  match v with
  | JUndefined | JNull => false
  | JBool b => b
  | JNum q => match binary64 q with
              | Finite r => negb (Qeq_bool r 0)
              | _ => true
              end
  | JStr s => negb (bool_decide (s = []))
  end.

(** [typeof v !== "string"]. *)
Definition typeof_not_string (v : jsval) : bool :=
  match v with
  | JStr _ => false
  | _ => true
  end.

(** [v.trim().length === 0], evaluated on strings only. *)
Definition trim_length_is_zero (v : jsval) : bool :=
  match v with
  | JStr s => (Z.of_nat (length (trim s)) =? 0)
  | _ => false
  end.

(** [v <= 0]: both sides become numbers, that is binary64 values (a
    price written 1e-400 is the number 0), NaN compares false. *)
Definition le_zero (v : jsval) : bool :=
  match ToNumber v with
  | NaN => false
  | Infinity negative => negative
  | Finite q => Qle_bool q 0
  end.

(** [String(n)] for an integer [n] (below 10^21, where JavaScript still
    prints every digit). *)
Fixpoint decimal_digits (fuel : nat) (n : N) (acc : jsstring) : jsstring :=
  match fuel with
  | O => acc
  | S fuel' =>
      let acc' := (48 + n mod 10)%N :: acc in
      if (n / 10 =? 0)%N then acc' else decimal_digits fuel' (n / 10)%N acc'
  end.

(** The decimal exponent of n / d: the p with 10^p <= n / d < 10^(p+1),
    looked for around a first guess. *)
Fixpoint floor_log10 (fuel : nat) (n d p : Z) : Z :=
  match fuel with
  | O => p
  | S fuel' =>
      if negb (at_least 10 n d p) then floor_log10 fuel' n d (p - 1)
      else if at_least 10 n d (p + 1) then floor_log10 fuel' n d (p + 1)
      else p
  end.

Fixpoint strip_zeros (fuel : nat) (s e : Z) : Z * Z :=
  match fuel with
  | O => (s, e)
  | S fuel' =>
      if (s mod 10 =? 0) && negb (s =? 0) then strip_zeros fuel' (s / 10) (e + 1)
      else (s, e)
  end.

(** The digits [String(x)] prints for the positive number x = n / d: the
    fewest that read back as x, and of two such decimals the nearer. *)
Fixpoint shortest (fuel : nat) (digits : Z) (n d p : Z) : Z * Z :=
  let e10 := p - digits + 1 in
  let lo := if 0 <=? e10 then n / (d * 10 ^ e10) else (n * 10 ^ (- e10)) / d in
  let reads_back s :=
    same_number (binary64 (scaled 10 s e10)) (binary64 (Qmake n (Z.to_pos d))) in
  match fuel with
  | O => (lo, e10)
  | S fuel' =>
      match reads_back lo, reads_back (lo + 1) with
      | true, false => (lo, e10)
      | false, true => (lo + 1, e10)
      | true, true =>
          let twice := if 0 <=? e10 then 2 * n - (2 * lo + 1) * (d * 10 ^ e10)
                       else 2 * n * 10 ^ (- e10) - (2 * lo + 1) * d in
          if twice <? 0 then (lo, e10)
          else if 0 <? twice then (lo + 1, e10)
          else if Z.even lo then (lo, e10) else (lo + 1, e10)
      | false, false => shortest fuel' (digits + 1) n d p
      end
  end.

(** The number that [String(x)] denotes, for a finite number x: the
    decimal a driver or a serializer writes for x. *)
Definition NumberToDecimal (x : Q) : Q :=
  let n := Z.abs (Qnum x) in
  let d := Zpos (Qden x) in
  if n =? 0 then 0%Q
  else
    let p := floor_log10 8 n d (((Z.log2 n - Z.log2 d) * 30103) / 100000) in
    let '(s, e) := shortest 17 1 n d p in
    let '(s', e') := strip_zeros 400 s e in
    scaled 10 (if Qnum x <? 0 then - s' else s') e'.

Definition NumberToString (n : Z) : jsstring :=
  match n with
  | Z0 => [48%N]
  | Zpos p => decimal_digits (N.size_nat (Npos p)) (Npos p) []
  | Zneg p => 45%N :: decimal_digits (N.size_nat (Npos p)) (Npos p) []
  end.

End Js.

Import Js.

(** ** The persistence gateway

    [connection.promise().query(sql, params)] against three tables.  The
    driver turns each bound parameter into an SQL literal; the engine
    evaluates the statement. *)

Module Sql.

Inductive sqlval :=
| SqlNull
| SqlBool (b : bool)
| SqlNum (q : Q)
| SqlStr (s : jsstring).

(** The driver's escaping of a parameter: [undefined] and [null] are sent
    as NULL, the other scalars as the literal of their own type; a number
    is sent as [String] prints it.  A number beyond the binary64 range is
    kept as it was written: the refusal of the engine to read [Infinity]
    is one of the rejections that are not generated. *)
Definition escape (v : jsval) : sqlval :=
  match v with
  | JUndefined | JNull => SqlNull
  | JBool b => SqlBool b
  | JNum q => match binary64 q with
              | Finite x => SqlNum (NumberToDecimal x)
              | _ => SqlNum q
              end
  | JStr s => SqlStr s
  end.

Definition is_space (c : N) : bool := ((9 <=? c) && (c <=? 13) || (c =? 32))%N.

Fixpoint skip_spaces (s : jsstring) : jsstring :=
  match s with
  | c :: s' => if is_space c then skip_spaces s' else s
  | [] => []
  end.

(** The engine's reading of a string as a number when it is compared with
    a numeric column: leading spaces, then the longest prefix that is a
    decimal literal; 0 when there is none.  What follows the prefix is
    ignored. *)
Definition string_to_number (s : jsstring) : Q :=
  let '(neg, r) := scan_sign (skip_spaces s) in
  match scan_mantissa r with
  | Some (m, k, r') =>
      let e := match scan_exponent r' with Some (e, _) => e | None => 0 end in
      let q := decimal_value m (k + e) in
      if neg then (- q)%Q else q
  | None => 0%Q
  end.

Definition integer_of (q : Q) : option Z :=
  if Qnum q mod Zpos (Qden q) =? 0 then Some (Qnum q / Zpos (Qden q)) else None.

(** The integer key, if any, that [id = ?] selects for a parameter.
    NULL equals nothing; TRUE and FALSE are 1 and 0. *)
Definition key_of (p : sqlval) : option Z :=
  match p with
  | SqlNull => None
  | SqlBool b => Some (if b then 1 else 0)
  | SqlNum q => integer_of q
  | SqlStr s => integer_of (string_to_number s)
  end.

(** [column = ?] on a column that holds a string. *)
Definition string_eq (column : jsstring) (p : jsstring) : bool :=
  bool_decide (column = p).

(** [column = ?] between stored values.  A string and a number are
    compared as numbers. *)
Definition sql_eq (column p : sqlval) : bool :=
  match column, p with
  | SqlNull, _ | _, SqlNull => false
  | SqlStr a, SqlStr b => string_eq a b
  | SqlStr a, SqlNum q => Qeq_bool (string_to_number a) q
  | SqlNum q, SqlStr b => Qeq_bool q (string_to_number b)
  | SqlNum a, SqlNum b => Qeq_bool a b
  | SqlBool a, SqlBool b => bool_decide (a = b)
  | SqlBool a, SqlNum q | SqlNum q, SqlBool a => Qeq_bool (if a then 1 else 0) q
  | SqlBool a, SqlStr s | SqlStr s, SqlBool a =>
      Qeq_bool (if a then 1 else 0) (string_to_number s)
  end.

End Sql.

Import Sql.

(** ** Credentials *)

(** What [bcrypt.hash(s, rounds)] returns: the work factor, the salt that
    was drawn and the key material read from the password, locked inside
    the hash. *)
Record bcrypt_hash := BcryptHash {
  hash_rounds : Z;
  hash_salt : N;
  hash_key : list N
}.

(** What [jwt.sign(payload, secret, { expiresIn })] returns: the claims
    and the key they are signed with. *)
Record token := Token {
  token_id : Z;
  token_iat : Z;
  token_exp : Z;
  token_key : jsstring
}.

(** ** Tables and the state of the world *)

Record user := User {
  user_name : sqlval;
  user_email : sqlval;
  user_pass : bcrypt_hash
}.

Record category := Category {
  category_name : sqlval
}.

Record product := Product {
  product_name : sqlval;
  product_price : sqlval;
  product_category_id : sqlval
}.

Record database := Database {
  users : gmap Z user;
  users_next : Z;
  categories : gmap Z category;
  categories_next : Z;
  products : gmap Z product;
  products_next : Z
}.

(** The statements sent so far, newest first, next to the database. *)
Record world := World {
  db : database;
  sent : list string
}.

Definition empty_database : database :=
  {| users := ∅; users_next := 1;
     categories := ∅; categories_next := 1;
     products := ∅; products_next := 1 |}.

Definition initial_world : world := {| db := empty_database; sent := [] |}.

(** ** Asynchronous actions

    An awaited action reads and changes the world and either resolves to
    a value or rejects; [try_catch] is the [try { } catch (err) { }] of
    the controllers. *)

Inductive outcome (A : Type) :=
| Resolved (a : A)
| Rejected (err : string).

Arguments Resolved {A} a.
Arguments Rejected {A} err.

Definition io (A : Type) : Type := world -> outcome A * world.

#[export] Instance io_ret : MRet io := fun A a w => (Resolved a, w).

#[export] Instance io_bind : MBind io := fun A B k c w =>
  match c w with
  | (Resolved a, w') => k a w'
  | (Rejected err, w') => (Rejected err, w')
  end.

Definition throw {A : Type} (err : string) : io A := fun w => (Rejected err, w).

Definition try_catch {A : Type} (c : io A) (handler : string -> io A) : io A :=
  fun w =>
    match c w with
    | (Resolved a, w') => (Resolved a, w')
    | (Rejected err, w') => handler err w'
    end.

(** ** bcryptjs and jsonwebtoken *)

Module bcrypt.

(** UTF-16 code units to code points: a surrogate followed by a low
    surrogate is one code point, any other code unit stands for itself. *)
Fixpoint code_points (s : jsstring) : list N :=
  match s with
  | c1 :: rest =>
      match rest with
      | c2 :: rest' =>
          if ((55296 <=? c1) && (c1 <=? 57343) && (56320 <=? c2) && (c2 <=? 57343))%N
          then ((c1 - 55296) * 1024 + (c2 - 56320) + 65536)%N :: code_points rest'
          else c1 :: code_points rest
      | [] => [c1]
      end
  | [] => []
  end.

Definition utf8_encode (cp : N) : list N :=
  if (cp <? 128)%N then [cp]
  else if (cp <? 2048)%N then [192 + cp / 64; 128 + cp mod 64]%N
  else if (cp <? 65536)%N
  then [224 + cp / 4096; 128 + (cp / 64) mod 64; 128 + cp mod 64]%N
  else [240 + cp / 262144; 128 + (cp / 4096) mod 64;
        128 + (cp / 64) mod 64; 128 + cp mod 64]%N.

Definition stringToBytes (s : jsstring) : list N :=
  concat (map utf8_encode (code_points s)).

(** The key material of a password: its UTF-8 bytes and a closing zero
    byte, read round and round until the 18 words of the Blowfish key,
    72 bytes, are filled.  Nothing else of the password enters the hash. *)
Definition key (s : jsstring) : list N :=
  take 72 (concat (replicate 72 (stringToBytes s ++ [0%N]))).

(** [bcrypt.hash(s, rounds)], with the salt it draws; it rejects when
    [s] is not a string. *)
Definition hash (s : jsval) (rounds : Z) (salt : N) : io bcrypt_hash :=
  match s with
  | JStr p => mret {| hash_rounds := rounds; hash_salt := salt; hash_key := key p |}
  | _ => throw "Illegal arguments"
  end.

(** [bcrypt.compare(s, hash)]: the password is hashed again with the
    salt of [hash] and the two hashes are compared; it rejects when [s] is
    not a string. *)
Definition compare (s : jsval) (h : bcrypt_hash) : io bool :=
  match s with
  | JStr p => mret (bool_decide (key p = hash_key h))
  | _ => throw "Illegal arguments"
  end.

End bcrypt.

Module jwt.

(** A time span such as "1h" in seconds: a number and a unit letter. *)
Definition timespan (s : string) : Z :=
  match scan_digits 10 decimal_digit (js s) 0 0 with
  | (n, _, [115%N]) => n
  | (n, _, [109%N]) => n * 60
  | (n, _, [104%N]) => n * 3600
  | (n, _, [100%N]) => n * 86400
  | _ => 0
  end.

(** [jwt.sign({ id }, secret, { expiresIn })] at the time [now]; it
    throws when the secret is unset or empty. *)
Definition sign (id : Z) (secret : option jsstring) (expiresIn : string) (now : Z)
    : io token :=
  match secret with
  | Some (c :: key) =>
      mret {| token_id := id; token_iat := now;
              token_exp := now + timespan expiresIn; token_key := c :: key |}
  | _ => throw "secretOrPrivateKey must have a value"
  end.

End jwt.

(** The header of a statement that changed rows. *)
Record result_header := ResultHeader {
  affectedRows : Z;
  insertId : Z
}.

Module connection.

(** A statement that reads: it is sent, the database stays as it is. *)
Definition select {A : Type} (sql : string) (rows : database -> A) : io A :=
  fun w => (Resolved (rows (db w)), {| db := db w; sent := sql :: sent w |}).

(** A statement that writes. *)
Definition execute (sql : string) (run : database -> result_header * database)
    : io result_header :=
  fun w => let '(h, d) := run (db w) in
           (Resolved h, {| db := d; sent := sql :: sent w |}).

(** The rows [WHERE id = ?] selects: the key is unique. *)
Definition where_id {A : Type} (table : gmap Z A) (p : sqlval) : list (Z * A) :=
  match key_of p with
  | Some k => match table !! k with
              | Some row => [(k, row)]
              | None => []
              end
  | None => []
  end.

Definition where_column {A : Type} (table : gmap Z A) (matches : A -> bool)
    : list (Z * A) :=
  List.filter (fun r => matches (snd r)) (map_to_list table).

Definition delete_where_id {A : Type} (table : gmap Z A) (p : sqlval)
    : result_header * gmap Z A :=
  match where_id table p with
  | (k, _) :: _ => ({| affectedRows := 1; insertId := 0 |}, delete k table)
  | [] => ({| affectedRows := 0; insertId := 0 |}, table)
  end.

Definition update_where_id {A : Type} (table : gmap Z A) (p : sqlval) (row : A)
    : result_header * gmap Z A :=
  match where_id table p with
  | (k, _) :: _ => ({| affectedRows := 1; insertId := 0 |}, <[k := row]> table)
  | [] => ({| affectedRows := 0; insertId := 0 |}, table)
  end.

Definition users_where_email (email : sqlval) : io (list (Z * user)) :=
  select "SELECT * FROM users WHERE email = ?"
    (fun d => where_column (users d) (fun u => sql_eq (user_email u) email)).

Definition insert_user (name email : sqlval) (pass : bcrypt_hash) : io result_header :=
  execute "INSERT INTO users (name, email, pass) VALUES (?, ?, ?)"
    (fun d =>
       ({| affectedRows := 1; insertId := users_next d |},
        {| users := <[users_next d := User name email pass]> (users d);
           users_next := users_next d + 1;
           categories := categories d; categories_next := categories_next d;
           products := products d; products_next := products_next d |})).

Definition all_categories : io (list (Z * category)) :=
  select "SELECT * FROM categories" (fun d => map_to_list (categories d)).

Definition categories_where_id (id : sqlval) : io (list (Z * category)) :=
  select "SELECT * FROM categories WHERE id = ?" (fun d => where_id (categories d) id).

Definition categories_where_name (name : sqlval) : io (list (Z * category)) :=
  select "SELECT * FROM categories WHERE name = ?"
    (fun d => where_column (categories d) (fun c => sql_eq (category_name c) name)).

Definition insert_category (name : sqlval) : io result_header :=
  execute "INSERT INTO categories (name) VALUES (?)"
    (fun d =>
       ({| affectedRows := 1; insertId := categories_next d |},
        {| users := users d; users_next := users_next d;
           categories := <[categories_next d := Category name]> (categories d);
           categories_next := categories_next d + 1;
           products := products d; products_next := products_next d |})).

Definition update_category (name id : sqlval) : io result_header :=
  execute "UPDATE categories SET name = ? WHERE id = ?"
    (fun d =>
       let '(h, t) := update_where_id (categories d) id (Category name) in
       (h, {| users := users d; users_next := users_next d;
              categories := t; categories_next := categories_next d;
              products := products d; products_next := products_next d |})).

Definition delete_category (id : sqlval) : io result_header :=
  execute "DELETE FROM categories WHERE id = ?"
    (fun d =>
       let '(h, t) := delete_where_id (categories d) id in
       (h, {| users := users d; users_next := users_next d;
              categories := t; categories_next := categories_next d;
              products := products d; products_next := products_next d |})).

Definition all_products : io (list (Z * product)) :=
  select "SELECT * FROM products" (fun d => map_to_list (products d)).

Definition products_where_id (id : sqlval) : io (list (Z * product)) :=
  select "SELECT * FROM products WHERE id = ?" (fun d => where_id (products d) id).

Definition insert_product (name price category_id : sqlval) : io result_header :=
  execute "INSERT INTO products (name, price, category_id) VALUES (?, ?, ?)"
    (fun d =>
       ({| affectedRows := 1; insertId := products_next d |},
        {| users := users d; users_next := users_next d;
           categories := categories d; categories_next := categories_next d;
           products := <[products_next d := Product name price category_id]> (products d);
           products_next := products_next d + 1 |})).

Definition update_product (name price category_id id : sqlval) : io result_header :=
  execute "UPDATE products SET name = ?, price = ?, category_id = ? WHERE id = ?"
    (fun d =>
       let '(h, t) := update_where_id (products d) id (Product name price category_id) in
       (h, {| users := users d; users_next := users_next d;
              categories := categories d; categories_next := categories_next d;
              products := t; products_next := products_next d |})).

Definition delete_product (id : sqlval) : io result_header :=
  execute "DELETE FROM products WHERE id = ?"
    (fun d =>
       let '(h, t) := delete_where_id (products d) id in
       (h, {| users := users d; users_next := users_next d;
              categories := categories d; categories_next := categories_next d;
              products := t; products_next := products_next d |})).

End connection.

(** ** Requests and responses *)

Record request := Request {
  params : gmap string jsstring;
  body : gmap string jsval
}.

(** [req.params.id]: a route parameter is a string. *)
Definition param (req : request) (key : string) : jsval :=
  match params req !! key with
  | Some s => JStr s
  | None => JUndefined
  end.

(** A field destructured from [req.body]; [undefined] when it is absent. *)
Definition field (req : request) (key : string) : jsval :=
  default JUndefined (body req !! key).

(** What a call of an auth controller finds around it: the signing key in
    the environment of the process, if it is set, the time, and the salt
    bcrypt draws. *)
Record environment := Environment {
  JWT_SECRET : option jsstring;
  now : Z;
  salt : N
}.

Inductive content :=
| no_content
| error (msg : string)
| message (msg : string)
| message_token (msg : string) (t : token)
| object (fields : list (string * jsval))
| category_row (id : Z) (row : category)
| category_rows (rows : list (Z * category))
| product_row (id : Z) (row : product)
| product_rows (rows : list (Z * product)).

Record response := Response {
  status : Z;
  json : content
}.

Definition internal_server_error : io response :=
  mret (Response 500 (error "Internal server error")).

(** ** controllers/authController.js *)

Module authController.

Definition register (env : environment) (req : request) : io response :=
  let name := field req "name" in
  let email := field req "email" in
  let pass := field req "pass" in
  try_catch
    (users ← connection.users_where_email (escape email);
     if negb (Z.of_nat (length users) =? 0) then
       mret (Response 400 (error "Email already registered"))
     else
       hashedPassword ← bcrypt.hash pass 10 (salt env);
       _ ← connection.insert_user (escape name) (escape email) hashedPassword;
       mret (Response 201 (message "User registered successfully")))
    (fun _ => internal_server_error).

Definition login (env : environment) (req : request) : io response :=
  let email := field req "email" in
  let pass := field req "pass" in
  try_catch
    (users ← connection.users_where_email (escape email);
     match users with
     | [] => mret (Response 400 (error "User not found"))
     | (id, user) :: _ =>
         isMatch ← bcrypt.compare pass (user_pass user);
         if negb (isMatch : bool) then
           mret (Response 400 (error "Invalid credentials"))
         else
           token ← jwt.sign id (JWT_SECRET env) "1h" (now env);
           mret (Response 200 (message_token "Login Success." token))
     end)
    (fun _ => internal_server_error).

End authController.

(** ** controllers/categoryController.js *)

Module categoryController.

Definition categoryExists (name : jsval) : io bool :=
  result ← connection.categories_where_name (escape name);
  mret (0 <? Z.of_nat (length result)).

Definition getCategories (req : request) : io response :=
  try_catch
    (categories ← connection.all_categories;
     mret (Response 200 (category_rows categories)))
    (fun _ => internal_server_error).

Definition getCategoryById (req : request) : io response :=
  let id := param req "id" in
  if isNaN id then mret (Response 400 (error "Invalid category ID"))
  else
    try_catch
      (category ← connection.categories_where_id (escape id);
       match category with
       | [] => mret (Response 404 (error "Category not found"))
       | (k, row) :: _ => mret (Response 200 (category_row k row))
       end)
      (fun _ => internal_server_error).

Definition createCategory (req : request) : io response :=
  let name := field req "name" in
  if negb (truthy name) || typeof_not_string name || trim_length_is_zero name then
    mret (Response 400
            (error "Category name is required and must be a non-empty string."))
  else
    try_catch
      (exists_ ← categoryExists name;
       if (exists_ : bool) then mret (Response 400 (error "Category already exists"))
       else
         result ← connection.insert_category (escape name);
         mret (Response 201
                 (object [("id", JNum (inject_Z (insertId result)));
                          ("name", name)])))
      (fun _ => internal_server_error).

Definition updateCategory (req : request) : io response :=
  let id := param req "id" in
  let name := field req "name" in
  if isNaN id then mret (Response 400 (error "Invalid category ID"))
  else if negb (truthy name) || typeof_not_string name || trim_length_is_zero name then
    mret (Response 400
            (error "Category name is required and must be a non-empty string."))
  else
    try_catch
      (existingCategory ← connection.categories_where_id (escape id);
       if Z.of_nat (length existingCategory) =? 0 then
         mret (Response 404 (error "Category not found"))
       else
         result ← connection.update_category (escape name) (escape id);
         if affectedRows result =? 0 then
           mret (Response 404 (error "Category not found"))
         else mret (Response 200 (object [("id", id); ("name", name)])))
      (fun _ => internal_server_error).

Definition deleteCategory (req : request) : io response :=
  let id := param req "id" in
  if isNaN id then mret (Response 400 (error "Invalid category ID"))
  else
    try_catch
      (result ← connection.delete_category (escape id);
       if affectedRows result =? 0 then
         mret (Response 404 (error "Category not found"))
       else mret (Response 204 no_content))
      (fun _ => internal_server_error).

End categoryController.

(** ** controllers/productController.js *)

Module productController.

Definition categoryExists (categoryId : jsval) : io bool :=
  result ← connection.categories_where_id (escape categoryId);
  mret (0 <? Z.of_nat (length result)).

Definition getProducts (req : request) : io response :=
  try_catch
    (products ← connection.all_products;
     mret (Response 200 (product_rows products)))
    (fun _ => internal_server_error).

Definition getProductById (req : request) : io response :=
  let id := param req "id" in
  if isNaN id then mret (Response 400 (error "Invalid product ID"))
  else
    try_catch
      (product ← connection.products_where_id (escape id);
       match product with
       | [] => mret (Response 404 (error "Product not found"))
       | (k, row) :: _ => mret (Response 200 (product_row k row))
       end)
      (fun _ => internal_server_error).

Definition createProduct (req : request) : io response :=
  let name := field req "name" in
  let price := field req "price" in
  let category_id := field req "category_id" in
  if negb (truthy name) || typeof_not_string name || trim_length_is_zero name then
    mret (Response 400
            (error "Product name is required and must be a non-empty string."))
  else if isNaN price || le_zero price then
    mret (Response 400 (error "Product price must be a positive number."))
  else if isNaN category_id then
    mret (Response 400 (error "Category ID must be a valid number."))
  else
    try_catch
      (exists_ ← categoryExists category_id;
       if negb (exists_ : bool) then mret (Response 400 (error "Category does not exist"))
       else
         result ← connection.insert_product
                    (escape name) (escape price) (escape category_id);
         mret (Response 201
                 (object [("id", JNum (inject_Z (insertId result)));
                          ("name", name); ("price", price);
                          ("category_id", category_id)])))
      (fun _ => internal_server_error).

Definition updateProduct (req : request) : io response :=
  let id := param req "id" in
  let name := field req "name" in
  let price := field req "price" in
  let category_id := field req "category_id" in
  if isNaN id then mret (Response 400 (error "Invalid product ID"))
  else if truthy name && (typeof_not_string name || trim_length_is_zero name) then
    mret (Response 400 (error "Product name must be a non-empty string."))
  else if truthy price && (isNaN price || le_zero price) then
    mret (Response 400 (error "Product price must be a positive number."))
  else if truthy category_id && isNaN category_id then
    mret (Response 400 (error "Category ID must be a valid number."))
  else
    try_catch
      (existingProduct ← connection.products_where_id (escape id);
       if Z.of_nat (length existingProduct) =? 0 then
         mret (Response 404 (error "Product not found"))
       else
         missing ← (if truthy category_id
                    then exists_ ← categoryExists category_id; mret (negb (exists_ : bool))
                    else mret false : io bool);
         if (missing : bool) then
           mret (Response 400 (error "Category does not exist"))
         else
           result ← connection.update_product
                      (escape name) (escape price) (escape category_id) (escape id);
           if affectedRows result =? 0 then
             mret (Response 404 (error "Product not found"))
           else
             mret (Response 200
                     (object [("id", id); ("name", name); ("price", price);
                              ("category_id", category_id)])))
      (fun _ => internal_server_error).

Definition deleteProduct (req : request) : io response :=
  let id := param req "id" in
  if isNaN id then mret (Response 400 (error "Invalid product ID"))
  else
    try_catch
      (result ← connection.delete_product (escape id);
       if affectedRows result =? 0 then
         mret (Response 404 (error "Product not found"))
       else mret (Response 204 no_content))
      (fun _ => internal_server_error).

End productController.

(** ** The router *)

Inductive call :=
| POST_auth_register (env : environment) (req : request)
| POST_auth_login (env : environment) (req : request)
| GET_categories (req : request)
| GET_categories_id (req : request)
| POST_categories (req : request)
| PUT_categories_id (req : request)
| DELETE_categories_id (req : request)
| GET_products (req : request)
| GET_products_id (req : request)
| POST_products (req : request)
| PUT_products_id (req : request)
| DELETE_products_id (req : request).

Definition route (c : call) : io response :=
  match c with
  | POST_auth_register env req => authController.register env req
  | POST_auth_login env req => authController.login env req
  | GET_categories req => categoryController.getCategories req
  | GET_categories_id req => categoryController.getCategoryById req
  | POST_categories req => categoryController.createCategory req
  | PUT_categories_id req => categoryController.updateCategory req
  | DELETE_categories_id req => categoryController.deleteCategory req
  | GET_products req => productController.getProducts req
  | GET_products_id req => productController.getProductById req
  | POST_products req => productController.createProduct req
  | PUT_products_id req => productController.updateProduct req
  | DELETE_products_id req => productController.deleteProduct req
  end.

(** The statements the controllers send, with the values they put in the
    placeholders.  The server serves calls concurrently: a controller gives
    way at every [await], so that the statements of other calls may run
    between two statements of one call; the database runs each statement
    as a whole.  The name of a category is checked before the first
    [await] of createCategory and of updateCategory. *)
Inductive sends : forall {A : Type}, io A -> Prop :=
| sends_users_where_email (email : jsval) :
    sends (connection.users_where_email (escape email))
| sends_insert_user (name email : jsval) (hashedPassword : bcrypt_hash) :
    sends (connection.insert_user (escape name) (escape email) hashedPassword)
| sends_all_categories : sends connection.all_categories
| sends_categories_where_id (id : jsval) :
    sends (connection.categories_where_id (escape id))
| sends_categories_where_name (name : jsval) :
    sends (connection.categories_where_name (escape name))
| sends_insert_category (name : jsval) :
    negb (truthy name) || typeof_not_string name || trim_length_is_zero name = false ->
    sends (connection.insert_category (escape name))
| sends_update_category (name id : jsval) :
    negb (truthy name) || typeof_not_string name || trim_length_is_zero name = false ->
    sends (connection.update_category (escape name) (escape id))
| sends_delete_category (id : jsval) :
    sends (connection.delete_category (escape id))
| sends_all_products : sends connection.all_products
| sends_products_where_id (id : jsval) :
    sends (connection.products_where_id (escape id))
| sends_insert_product (name price category_id : jsval) :
    sends (connection.insert_product (escape name) (escape price) (escape category_id))
| sends_update_product (name price category_id id : jsval) :
    sends (connection.update_product
             (escape name) (escape price) (escape category_id) (escape id))
| sends_delete_product (id : jsval) :
    sends (connection.delete_product (escape id)).

(** The worlds the server can be in: the initial one and those a
    statement of some call leaves behind, in whatever order the statements
    of the calls it is serving arrive.  Serving a call as a whole, from its
    first statement to its last, is one such order ([reachable_call]). *)
Inductive reachable : world -> Prop :=
| reachable_initial : reachable initial_world
| reachable_statement {A : Type} (q : io A) (w : world) :
    sends q -> reachable w -> reachable (snd (q w)).

(** ** Invariant of the store and vocabulary of the specification *)

Definition keys_below {A : Type} (table : gmap Z A) (next : Z) : Prop :=
  forall k, is_Some (table !! k) -> 0 < k < next.

Definition rows_satisfy {A : Type} (P : A -> Prop) (table : gmap Z A) : Prop :=
  forall k row, table !! k = Some row -> P row.

Definition named_by_string (c : category) : Prop :=
  exists s, category_name c = SqlStr s.

(** Every key was handed out by the counter of its table, and a category
    name is a string. *)
Record consistent (d : database) : Prop := Consistent {
  users_counter : 0 < users_next d;
  users_keys : keys_below (users d) (users_next d);
  categories_counter : 0 < categories_next d;
  categories_keys : keys_below (categories d) (categories_next d);
  products_counter : 0 < products_next d;
  products_keys : keys_below (products d) (products_next d);
  categories_named : rows_satisfy named_by_string (categories d)
}.

(** A well-formed positive integer, in the words of the specification:
    decimal digits only, at least one, denoting a number above zero. *)
Definition well_formed_positive_integer (s : jsstring) : bool :=
  match scan_digits 10 decimal_digit s 0 0 with
  | (v, n, []) => (0 <? n) && (0 <? v)
  | _ => false
  end.

Definition is_decimal_digit (c : N) : Prop := (48 <= c <= 57)%N.

(** A run of decimal digits, at least one. *)
Definition digit_string (s : jsstring) : Prop :=
  Forall is_decimal_digit s /\ s <> [].

(** The value of a run of decimal digits on top of [acc]. *)
Definition digits_value (s : jsstring) (acc : Z) : Z :=
  fold_left (fun a c => 10 * a + Z.of_N (c - 48)) s acc.


(** The three field checks of [updateProduct], in its order. *)
Definition updateProduct_rejects (req : request) : bool :=
  (truthy (field req "name")
   && (typeof_not_string (field req "name") || trim_length_is_zero (field req "name")))
  || (truthy (field req "price")
      && (isNaN (field req "price") || le_zero (field req "price")))
  || (truthy (field req "category_id") && isNaN (field req "category_id")).

(** The check of [createCategory] and [updateCategory] on the name. *)
Definition category_name_rejected (v : jsval) : bool :=
  negb (truthy v) || typeof_not_string v || trim_length_is_zero v.

(** A request whose route parameter [id] is [id]. *)
Definition with_id (id : jsstring) (fields : gmap string jsval) : request :=
  {| params := {[ "id" := id ]}; body := fields |}.

(** ** A run of the server

    The scenario of the specification: a category "Shoes", then a product
    "Runner" at 49.99 in it; and a user who registers. *)

Definition shoes : request :=
  {| params := ∅; body := {[ "name" := JStr (js "Shoes") ]} |}.

Definition runner : request :=
  {| params := ∅;
     body := {[ "name" := JStr (js "Runner"); "price" := JNum (4999 # 100);
                "category_id" := JNum 1 ]} |}.

Definition after_shoes : world := (route (POST_categories shoes) initial_world).2.

Definition after_runner : world := (route (POST_products runner) after_shoes).2.



(** A second category for the scenario. *)
Definition boots : request :=
  {| params := ∅; body := {[ "name" := JStr (js "Boots") ]} |}.

Definition after_boots : world := (route (POST_categories boots) after_runner).2.

(** A string of white space only, the empty string included. *)
Definition blank (s : jsstring) : bool := forallb is_white_space s.

(** A category whose name is a string with something to read in it. *)
Definition nonblank_name (c : category) : Prop :=
  exists s, category_name c = SqlStr s /\ blank s = false.

(** The calls that only read. *)
Definition read_only (c : call) : bool :=
  match c with
  | POST_auth_login _ _ | GET_categories _ | GET_categories_id _
  | GET_products _ | GET_products_id _ => true
  | _ => false
  end.

(** * Properties *)

(** ** Coercions *)

Example number_samples :
  (isNaN (JStr (js "12")), isNaN (JStr (js "abc")), isNaN (JStr (js "-5")),
   isNaN (JStr (js "1.5e3")), isNaN (JStr (js " 0x1F ")), isNaN (JStr (js "1e")),
   isNaN (JStr (js ".")), isNaN (JStr []), isNaN JUndefined, isNaN JNull,
   isNaN (JStr (js "-Infinity")), isNaN (JStr (js "-0x10")))
  = (false, true, false, false, false, true, true, false, true, false, false, true).
Proof. vm_compute. reflexivity. Qed.

Example binary64_samples :
  (same_number (binary64 (1 # 10)) (Finite (3602879701896397 # 36028797018963968)),
   same_number (StringToNumber (js "1e-400")) (Finite 0),
   same_number (StringToNumber (js "2e-324")) (Finite 0),
   same_number (StringToNumber (js "2.5e-324")) (Finite (1 # 2 ^ 1074)),
   same_number (StringToNumber (js "9007199254740993")) (Finite 9007199254740992),
   same_number (StringToNumber (js "1.7976931348623157e308"))
     (Finite (inject_Z ((2 ^ 53 - 1) * 2 ^ 971))),
   same_number (StringToNumber (js "1e400")) (Infinity false),
   le_zero (JStr (js "1e-400")), truthy (JNum (1 # 10 ^ 400)))
  = (true, true, true, true, true, true, true, true, false).
Proof. vm_compute. reflexivity. Qed.

Example escape_samples :
  (escape (JNum (4999 # 100)), escape (JNum (1 # 3)), escape (JNum 9007199254740993),
   escape (JNum (1 # 10 ^ 400)), escape (JNum (-7)))
  = (SqlNum (4999 # 100), SqlNum (3333333333333333 # 10000000000000000),
     SqlNum 9007199254740992, SqlNum 0, SqlNum (-7)).
Proof. vm_compute. reflexivity. Qed.

Example to_string_samples :
  (NumberToString 0, NumberToString 7, NumberToString 1024, NumberToString (-30))
  = (js "0", js "7", js "1024", js "-30").
Proof. vm_compute. reflexivity. Qed.

Example key_samples :
  (key_of (SqlStr (js "12")), key_of (SqlStr (js " 7abc")), key_of (SqlStr (js "1.5")),
   key_of (SqlStr (js "1e2")), key_of (SqlStr (js "0x10")), key_of (SqlStr (js "-5")),
   key_of (SqlNum 3), key_of (SqlBool true), key_of SqlNull, key_of (SqlStr (js "2.0")))
  = (Some 12, Some 7, None, Some 100, Some 0, Some (-5), Some 3, Some 1, None, Some 2).
Proof. vm_compute. reflexivity. Qed.

Lemma decimal_digit_Some (c : N) :
  is_decimal_digit c -> decimal_digit c = Some (Z.of_N (c - 48)).
Proof.
  unfold is_decimal_digit, decimal_digit. intros [H1 H2].
  apply N.leb_le in H1. apply N.leb_le in H2. rewrite H1, H2. reflexivity.
Qed.

Lemma scan_digits_all (s : jsstring) :
  Forall is_decimal_digit s ->
  forall acc count,
    scan_digits 10 decimal_digit s acc count
    = (digits_value s acc, count + Z.of_nat (length s), []).
Proof.
  induction 1 as [|c s Hc Hs IH]; intros acc count; simpl.
  - f_equal. f_equal. lia.
  - rewrite (decimal_digit_Some c Hc), IH. f_equal. f_equal. lia.
Qed.

Lemma decimal_digits_Forall (fuel : nat) :
  forall n acc, Forall is_decimal_digit acc ->
                Forall is_decimal_digit (decimal_digits fuel n acc).
Proof.
  induction fuel as [|fuel IH]; intros n acc Hacc; cbn [decimal_digits]; [exact Hacc|].
  assert (Hd : is_decimal_digit (48 + n mod 10)%N).
  { unfold is_decimal_digit. pose proof (N.mod_upper_bound n 10 ltac:(lia)) as Hm.
    revert Hm. generalize (n mod 10)%N. intros d Hd. lia. }
  destruct (n / 10 =? 0)%N; [|apply IH]; constructor; assumption.
Qed.

Lemma decimal_digits_not_nil (fuel : nat) (n : N) (acc : jsstring) :
  fuel <> O -> decimal_digits fuel n acc <> [].
Proof.
  intros Hfuel. revert n acc.
  induction fuel as [|fuel IH]; intros n acc; [congruence|].
  cbn [decimal_digits].
  destruct (n / 10 =? 0)%N; [discriminate|].
  destruct fuel as [|fuel']; [discriminate|]. apply IH. discriminate.
Qed.

Lemma digits_value_shift (s : jsstring) :
  forall acc, digits_value s acc = acc * 10 ^ Z.of_nat (length s) + digits_value s 0.
Proof.
  unfold digits_value.
  induction s as [|c s IH]; intros acc.
  - simpl. lia.
  - cbn [fold_left length]. rewrite IH. rewrite (IH (10 * 0 + _)).
    rewrite Nat2Z.inj_succ, Z.pow_succ_r by lia. ring.
Qed.

Lemma digits_value_cons (c : N) (s : jsstring) :
  digits_value (c :: s) 0
  = Z.of_N (c - 48) * 10 ^ Z.of_nat (length s) + digits_value s 0.
Proof.
  unfold digits_value at 1. cbn [fold_left].
  fold (digits_value s (10 * 0 + Z.of_N (c - 48))).
  rewrite digits_value_shift. ring.
Qed.

Lemma decimal_digits_value (fuel : nat) :
  forall n acc,
    (0 < n < 2 ^ N.of_nat fuel)%N ->
    digits_value (decimal_digits fuel n acc) 0
    = Z.of_N n * 10 ^ Z.of_nat (length acc) + digits_value acc 0.
Proof.
  induction fuel as [|fuel IH]; intros n acc Hn.
  - simpl in Hn. lia.
  - cbn [decimal_digits].
    pose proof (N.div_mod n 10 ltac:(lia)) as Hdm.
    pose proof (N.mod_upper_bound n 10 ltac:(lia)) as Hm.
    rewrite Nat2N.inj_succ, N.pow_succ_r' in Hn.
    revert Hdm Hm. generalize (n mod 10)%N (n / 10)%N. intros d q Hdm Hm.
    destruct (q =? 0)%N eqn:Hq.
    + apply N.eqb_eq in Hq. subst q.
      rewrite digits_value_cons.
      replace (48 + d - 48)%N with n by lia. reflexivity.
    + apply N.eqb_neq in Hq.
      rewrite IH by lia.
      rewrite digits_value_cons.
      replace (48 + d - 48)%N with d by lia.
      cbn [length]. rewrite Nat2Z.inj_succ, Z.pow_succ_r by lia.
      subst n. rewrite N2Z.inj_add, N2Z.inj_mul. change (Z.of_N 10) with 10. ring.
Qed.

Lemma size_nat_bound (p : positive) : (Npos p < 2 ^ N.of_nat (Pos.size_nat p))%N.
Proof.
  induction p as [p IH|p IH|]; cbn [Pos.size_nat];
    rewrite ?Nat2N.inj_succ, ?N.pow_succ_r'; lia.
Qed.

Lemma NumberToString_positive (k : Z) :
  0 < k -> digit_string (NumberToString k) /\ digits_value (NumberToString k) 0 = k.
Proof.
  destruct k as [|p|p]; try lia. intros _. cbn [NumberToString]. split; [split|].
  - apply decimal_digits_Forall. constructor.
  - apply decimal_digits_not_nil. destruct p; discriminate.
  - rewrite decimal_digits_value.
    + change (digits_value [] 0) with 0. change (10 ^ Z.of_nat (length (@nil N))) with 1.
      change (Z.of_N (N.pos p)) with (Z.pos p). lia.
    + split; [reflexivity|]. apply size_nat_bound.
Qed.

Lemma digit_not_white_space (c : N) : is_decimal_digit c -> is_white_space c = false.
Proof. unfold is_decimal_digit, is_white_space. intros H. lia. Qed.

Lemma trimStart_digits (s : jsstring) : Forall is_decimal_digit s -> trimStart s = s.
Proof.
  destruct 1 as [|c s Hc Hs]; [reflexivity|].
  cbn [trimStart]. rewrite digit_not_white_space by assumption. reflexivity.
Qed.

Lemma trim_digits (s : jsstring) : Forall is_decimal_digit s -> trim s = s.
Proof.
  intros H. unfold trim, trimEnd. rewrite (trimStart_digits s H).
  rewrite trimStart_digits, rev_involutive; [reflexivity|].
  apply Forall_rev, H.
Qed.

Lemma decimal_value_0 (m : Z) : decimal_value m 0 = inject_Z m.
Proof. unfold decimal_value. cbn. rewrite Z.mul_1_r. reflexivity. Qed.

Lemma scan_mantissa_digits (s : jsstring) :
  digit_string s -> scan_mantissa s = Some (digits_value s 0, 0, []).
Proof.
  intros [H Hne]. unfold scan_mantissa. rewrite scan_digits_all by assumption.
  destruct s as [|c s]; [congruence|].
  cbn [length]. destruct (0 + Z.of_nat (S (length s)) =? 0) eqn:E; [lia|reflexivity].
Qed.

Lemma binary64_not_NaN (q : Q) : binary64 q <> NaN.
Proof.
  unfold binary64. destruct (Z.abs (Qnum q) =? 0); [discriminate|].
  cbv zeta. destruct (_ =? 0); [discriminate|].
  destruct (_ && _); discriminate.
Qed.

Lemma round_half_even_nonneg (num den : Z) :
  0 <= num -> 0 < den -> 0 <= round_half_even num den.
Proof.
  intros Hn Hd. unfold round_half_even.
  pose proof (Z.div_pos num den Hn Hd).
  destruct (_ ?= _); [destruct (Z.even _)|..]; lia.
Qed.

(** Rounding to nearest, ties to even, gives zero exactly up to one half. *)
Lemma round_half_even_zero (num den : Z) :
  0 <= num -> 0 < den -> (round_half_even num den = 0 <-> 2 * num <= den).
Proof.
  intros Hn Hd. unfold round_half_even.
  pose proof (Z.div_pos num den Hn Hd) as Hk.
  pose proof (Z.div_mod num den ltac:(lia)) as Hdm.
  pose proof (Z.mod_pos_bound num den Hd) as Hm.
  destruct (Z.eq_dec (num / den) 0) as [E|E].
  - rewrite E in *. cbn [Z.even].
    destruct (Z.compare_spec (2 * (num mod den)) den); lia.
  - assert (den <= num) by nia.
    destruct (2 * (num mod den) ?= den); [destruct (Z.even _)|..]; lia.
Qed.

Lemma scaled_sign (m e : Z) : Qle_bool (scaled 2 m e) 0 = (m <=? 0).
Proof.
  unfold scaled. destruct (0 <=? e) eqn:E.
  - unfold Qle_bool, inject_Z. cbn [Qnum Qden].
    assert (0 < 2 ^ e) by (apply Z.pow_pos_nonneg; lia).
    destruct (m <=? 0) eqn:M; nia.
  - unfold Qle_bool. cbn [Qnum Qden]. lia.
Qed.

Lemma log2_bounds (n : Z) : 0 < n -> 2 ^ Z.log2 n <= n < 2 ^ (Z.log2 n + 1).
Proof.
  intros H. pose proof (Z.log2_spec n H) as Hs.
  replace (Z.log2 n + 1) with (Z.succ (Z.log2 n)) by lia. exact Hs.
Qed.

(** [n <= 0] is false for a number written [q] exactly when [q] is above
    2^-1075, half the least positive double: up to there [q] is read as
    0 (or as a negative number), above it as a positive double or as
    [Infinity]. *)
Lemma le_zero_number (q : Q) :
  le_zero (JNum q) = false <-> (1 # 2 ^ 1075 < q)%Q.
Proof.
  unfold le_zero, ToNumber.
  unfold Qlt. cbn [Qnum Qden]. rewrite Pos2Z.inj_pow.
  change (Z.pos 2) with 2. change (Z.pos 1075) with 1075.
  unfold binary64. destruct q as [a d]. cbn [Qnum Qden].
  set (D := Z.pos d). assert (0 < D) as HD by (subst D; lia).
  assert (0 < 2 ^ 1075) as H1075 by (apply Z.pow_pos_nonneg; lia).
  destruct (Z.abs a =? 0) eqn:Ea.
  { cbn. split; [discriminate|nia]. }
  cbv zeta.
  set (n := Z.abs a) in *. assert (0 < n) as Hn by lia.
  generalize (at_least 2 n D (Z.log2 n - Z.log2 D)). intros b.
  set (e := if b then _ else _).
  assert (e <= Z.log2 n - Z.log2 D) as He by (subst e; destruct b; lia).
  set (ulp := Z.max (e - 52) (-1074)).
  set (m := if 0 <=? ulp then _ else _).
  pose proof (log2_bounds n Hn) as [Hn1 Hn2].
  pose proof (log2_bounds D HD) as [Hd1 Hd2].
  pose proof (Z.log2_nonneg n) as Hln. pose proof (Z.log2_nonneg D) as Hld.
  assert (0 <= m /\ (m = 0 <-> 2 * n * 2 ^ 1074 <= D)) as [Hm0 Hm].
  { subst m. destruct (0 <=? ulp) eqn:Eu.
    - assert (0 < 2 ^ ulp) by (apply Z.pow_pos_nonneg; lia).
      split; [apply round_half_even_nonneg; nia|].
      rewrite round_half_even_zero by nia.
      assert (ulp = e - 52) as Hu by lia.
      assert (D * 2 ^ ulp < 2 ^ (Z.log2 D + 1 + ulp)).
      { rewrite Z.pow_add_r by lia. nia. }
      assert (2 ^ (Z.log2 D + 1 + ulp) <= 2 ^ Z.log2 n)
        by (apply Z.pow_le_mono_r; lia).
      assert (1 <= 2 ^ 1074) by lia.
      split; nia.
    - assert (0 < 2 ^ (- ulp)) by (apply Z.pow_pos_nonneg; lia).
      split; [apply round_half_even_nonneg; nia|].
      rewrite round_half_even_zero by nia.
      destruct (Z.eq_dec ulp (-1074)) as [->|Hne].
      + change (- -1074) with 1074. split; nia.
      + assert (ulp = e - 52) as Hu by lia.
        assert (2 ^ (Z.log2 D + 1) <= 2 ^ (Z.log2 n + 1 - ulp))
          by (apply Z.pow_le_mono_r; lia).
        assert (2 ^ (Z.log2 n + 1 - ulp) = 2 * 2 ^ Z.log2 n * 2 ^ (- ulp)).
        { replace (Z.log2 n + 1 - ulp) with (1 + Z.log2 n + - ulp) by lia.
          rewrite !Z.pow_add_r by lia. reflexivity. }
        assert (2 ^ (- ulp) <= 2 ^ 1074) by (apply Z.pow_le_mono_r; lia).
        split; nia. }
  change (2 ^ 1075) with (2 * 2 ^ 1074) in *.
  destruct (m =? 0) eqn:Em.
  { cbn. split; [discriminate|]. assert (m = 0) as E0 by lia. apply Hm in E0.
    intros. exfalso. subst n. nia. }
  assert (~ 2 * n * 2 ^ 1074 <= D) as Hpos by (intros H; apply Hm in H; lia).
  destruct (_ && _).
  - subst n. destruct (a <? 0) eqn:S; split; try discriminate; try reflexivity; nia.
  - rewrite scaled_sign. subst n.
    destruct (a <? 0) eqn:S; split; intros; try lia; try nia.
Qed.

Lemma StrUnsignedDecimalLiteral_digits (s : jsstring) :
  digit_string s -> StrUnsignedDecimalLiteral s = binary64 (inject_Z (digits_value s 0)).
Proof.
  intros Hs. unfold StrUnsignedDecimalLiteral.
  destruct (decide (s = js "Infinity")) as [->|_].
  - destruct Hs as [H _]. inversion H as [|c s' Hc Hs']. unfold is_decimal_digit in Hc.
    cbn in Hc. lia.
  - rewrite scan_mantissa_digits by assumption. rewrite decimal_value_0. reflexivity.
Qed.

Lemma StrDecimalLiteral_digits (s : jsstring) :
  digit_string s -> StrDecimalLiteral s = binary64 (inject_Z (digits_value s 0)).
Proof.
  intros Hs. pose proof (StrUnsignedDecimalLiteral_digits s Hs) as E.
  destruct Hs as [H Hne]. destruct H as [|c s Hc Hs]; [congruence|].
  unfold StrDecimalLiteral. unfold is_decimal_digit in Hc.
  destruct (c =? 43)%N eqn:E1; [lia|]. destruct (c =? 45)%N eqn:E2; [lia|]. exact E.
Qed.

Lemma StringToNumber_digits (s : jsstring) :
  digit_string s -> StringToNumber s = binary64 (inject_Z (digits_value s 0)).
Proof.
  intros Hs. pose proof (StrDecimalLiteral_digits s Hs) as E.
  destruct Hs as [H Hne]. unfold StringToNumber. rewrite trim_digits by assumption.
  destruct H as [|c0 s Hc0 Hs]; [congruence|].
  destruct Hs as [|c s Hc Hs]; [exact E|].
  unfold is_decimal_digit in Hc.
  replace ((c =? 120) || (c =? 88))%N with false by lia.
  replace ((c =? 111) || (c =? 79))%N with false by lia.
  replace ((c =? 98) || (c =? 66))%N with false by lia.
  rewrite !andb_false_r. exact E.
Qed.

Lemma isNaN_digits (s : jsstring) : digit_string s -> isNaN (JStr s) = false.
Proof.
  intros Hs. unfold isNaN, ToNumber. rewrite StringToNumber_digits by assumption.
  pose proof (binary64_not_NaN (inject_Z (digits_value s 0))) as H.
  destruct (binary64 _); [congruence|reflexivity..].
Qed.

Lemma integer_of_inject_Z (z : Z) : integer_of (inject_Z z) = Some z.
Proof.
  unfold integer_of, inject_Z. cbn [Qnum Qden].
  rewrite Z.mod_1_r, Z.div_1_r. reflexivity.
Qed.

Lemma key_of_digits (s : jsstring) :
  digit_string s -> key_of (SqlStr s) = Some (digits_value s 0).
Proof.
  intros Hs. unfold key_of, string_to_number.
  assert (Hskip : skip_spaces s = s).
  { destruct Hs as [[|c s' Hc _] _]; [reflexivity|]. cbn [skip_spaces].
    unfold is_space, is_decimal_digit in *.
    replace ((9 <=? c) && (c <=? 13) || (c =? 32))%N with false by lia. reflexivity. }
  assert (Hsign : scan_sign s = (false, s)).
  { destruct Hs as [[|c s' Hc _] _]; [reflexivity|]. unfold scan_sign.
    unfold is_decimal_digit in Hc.
    destruct (c =? 43)%N eqn:E1; [lia|]. destruct (c =? 45)%N eqn:E2; [lia|]. reflexivity. }
  rewrite Hskip, Hsign, scan_mantissa_digits by assumption.
  cbn [scan_exponent]. rewrite Z.add_0_r, decimal_value_0. apply integer_of_inject_Z.
Qed.

Lemma key_of_NumberToString (k : Z) :
  0 < k -> key_of (escape (JStr (NumberToString k))) = Some k.
Proof.
  intros Hk. destruct (NumberToString_positive k Hk) as [Hs Hv].
  cbn [escape]. rewrite key_of_digits by assumption. congruence.
Qed.

Lemma isNaN_NumberToString (k : Z) : 0 < k -> isNaN (JStr (NumberToString k)) = false.
Proof. intros Hk. apply isNaN_digits, NumberToString_positive, Hk. Qed.

(** ** The gateway *)

Section tables.
Context {A : Type}.
Implicit Types (table : gmap Z A) (p : sqlval) (row : A).

Lemma where_id_cons table p k row rest :
  connection.where_id table p = (k, row) :: rest ->
  key_of p = Some k /\ table !! k = Some row /\ rest = [].
Proof.
  unfold connection.where_id. destruct (key_of p) as [k'|]; [|discriminate].
  destruct (table !! k') as [row'|] eqn:E; [|discriminate].
  intros [= -> -> <-]. auto.
Qed.

Lemma where_id_nil table p k :
  connection.where_id table p = [] -> key_of p = Some k -> table !! k = None.
Proof.
  unfold connection.where_id. intros H Hk. rewrite Hk in H.
  destruct (table !! k); [discriminate|reflexivity].
Qed.

Lemma where_id_lookup table p k row :
  key_of p = Some k -> table !! k = Some row ->
  connection.where_id table p = [(k, row)].
Proof. unfold connection.where_id. intros -> ->. reflexivity. Qed.

Lemma where_id_delete table p k row rest :
  connection.where_id table p = (k, row) :: rest ->
  connection.where_id (delete k table) p = [].
Proof.
  intros H. apply where_id_cons in H as (Hk & _ & _).
  unfold connection.where_id. rewrite Hk, lookup_delete_eq. reflexivity.
Qed.

Lemma where_column_nil table (matches : A -> bool) :
  connection.where_column table matches = [] <->
  forall k row, table !! k = Some row -> matches row = false.
Proof.
  unfold connection.where_column. split.
  - intros H k row Hk. apply elem_of_map_to_list, list_elem_of_In in Hk.
    destruct (matches row) eqn:E; [|reflexivity].
    assert (Hin : In (k, row) (List.filter (fun r => matches r.2) (map_to_list table))).
    { apply filter_In. split; [exact Hk|exact E]. }
    rewrite H in Hin. destruct Hin.
  - intros H. destruct (List.filter _ _) as [|[k row] l] eqn:E; [reflexivity|].
    assert (Hin : In (k, row) ((k, row) :: l)) by (left; reflexivity).
    rewrite <- E in Hin. apply filter_In in Hin as [Hin Hm].
    apply list_elem_of_In, elem_of_map_to_list in Hin.
    cbn [snd] in Hm. rewrite (H k row Hin) in Hm. discriminate.
Qed.

Lemma keys_below_insert table next row :
  keys_below table next -> 0 < next -> keys_below (<[next := row]> table) (next + 1).
Proof.
  intros H Hn k. destruct (decide (next = k)) as [->|Hne].
  - intros _. lia.
  - rewrite lookup_insert_ne by assumption. intros Hk. specialize (H k Hk). lia.
Qed.

Lemma keys_below_fresh table next : keys_below table next -> table !! next = None.
Proof.
  intros H. destruct (table !! next) eqn:E; [|reflexivity].
  assert (Hs : is_Some (table !! next)) by (rewrite E; eauto).
  specialize (H next Hs). lia.
Qed.

Lemma keys_below_update table next p row :
  keys_below table next ->
  keys_below (connection.update_where_id table p row).2 next.
Proof.
  intros H. unfold connection.update_where_id.
  destruct (connection.where_id table p) as [|[k old] rest] eqn:E; [exact H|].
  apply where_id_cons in E as (_ & Hk & _). cbn [snd]. intros k'.
  destruct (decide (k = k')) as [<-|Hne].
  - intros _. apply H. rewrite Hk. eauto.
  - rewrite lookup_insert_ne by assumption. apply H.
Qed.

Lemma keys_below_delete table next p :
  keys_below table next ->
  keys_below (connection.delete_where_id table p).2 next.
Proof.
  intros H. unfold connection.delete_where_id.
  destruct (connection.where_id table p) as [|[k old] rest] eqn:E; [exact H|].
  cbn [snd]. intros k'. destruct (decide (k = k')) as [<-|Hne].
  - rewrite lookup_delete_eq. intros [? [=]].
  - rewrite lookup_delete_ne by assumption. apply H.
Qed.

Lemma rows_satisfy_insert (P : A -> Prop) table k row :
  rows_satisfy P table -> P row -> rows_satisfy P (<[k := row]> table).
Proof.
  intros H Hrow k' row'. destruct (decide (k = k')) as [<-|Hne].
  - rewrite lookup_insert_eq. intros [= <-]. exact Hrow.
  - rewrite lookup_insert_ne by assumption. apply H.
Qed.

Lemma rows_satisfy_update (P : A -> Prop) table p row :
  rows_satisfy P table -> P row ->
  rows_satisfy P (connection.update_where_id table p row).2.
Proof.
  intros H Hrow. unfold connection.update_where_id.
  destruct (connection.where_id table p) as [|[k old] rest]; [exact H|].
  cbn [snd]. apply rows_satisfy_insert; assumption.
Qed.

Lemma rows_satisfy_delete (P : A -> Prop) table p :
  rows_satisfy P table -> rows_satisfy P (connection.delete_where_id table p).2.
Proof.
  intros H. unfold connection.delete_where_id.
  destruct (connection.where_id table p) as [|[k old] rest]; [exact H|].
  cbn [snd]. intros k' row'. destruct (decide (k = k')) as [<-|Hne].
  - rewrite lookup_delete_eq. discriminate.
  - rewrite lookup_delete_ne by assumption. apply H.
Qed.
End tables.

Lemma category_name_accepted (v : jsval) :
  category_name_rejected v = false ->
  exists s, v = JStr s /\ s <> [] /\ trim s <> [].
Proof.
  unfold category_name_rejected.
  destruct v as [| |b|q|s]; cbn; try (rewrite ?orb_true_r; discriminate).
  intros H. exists s. split; [reflexivity|].
  apply orb_false_iff in H as [H1 H2]. apply orb_false_iff in H1 as [H1 _].
  apply negb_false_iff, negb_true_iff, bool_decide_eq_false in H1.
  split; [exact H1|]. intros E. rewrite E in H2. discriminate.
Qed.

Lemma consistent_empty : consistent empty_database.
Proof.
  split; cbn; try lia; try (intros k [x Hx]; rewrite lookup_empty in Hx; discriminate).
  intros k c H. rewrite lookup_empty in H. discriminate.
Qed.

Ltac run_io :=
  cbv [mbind mret io_bind io_ret try_catch throw internal_server_error
       bcrypt.hash bcrypt.compare jwt.sign
       connection.select connection.execute
       connection.users_where_email connection.insert_user
       connection.all_categories connection.categories_where_id
       connection.categories_where_name connection.insert_category
       connection.update_category connection.delete_category
       connection.all_products connection.products_where_id
       connection.insert_product connection.update_product
       connection.delete_product
       categoryController.categoryExists productController.categoryExists];
  cbn [db sent fst snd].

(** Case analysis on the next test of the controller under study. *)
Ltac branch :=
  match goal with
  | |- context [if ?b then _ else _] => destruct b eqn:?
  | |- context [match ?l with [] => _ | _ :: _ => _ end] =>
      let k := fresh "k" in let row := fresh "row" in
      destruct l as [|[k row] ?] eqn:?
  | |- context [match ?v with
                | JUndefined => _ | JNull => _ | JBool _ => _ | JNum _ => _
                | JStr _ => _
                end] => destruct v eqn:?
  | |- context [match ?o with Some _ => _ | None => _ end] =>
      destruct o as [[|? ?]|] eqn:?
  end;
  cbn [db sent fst snd affectedRows insertId].

Create HintDb store.
#[local] Hint Resolve keys_below_insert : store.


Lemma consistent_users d name email pass :
  consistent d ->
  consistent
    {| users := <[users_next d := User name email pass]> (users d);
       users_next := users_next d + 1;
       categories := categories d; categories_next := categories_next d;
       products := products d; products_next := products_next d |}.
Proof.
  intros [? ? ? ? ? ? ?]. split; cbn; auto with store; lia.
Qed.

Lemma consistent_categories d (t : gmap Z category) :
  consistent d ->
  keys_below t (categories_next d) -> rows_satisfy named_by_string t ->
  consistent
    {| users := users d; users_next := users_next d;
       categories := t; categories_next := categories_next d;
       products := products d; products_next := products_next d |}.
Proof. intros [? ? ? ? ? ? ?] ? ?. split; cbn; auto. Qed.

Lemma consistent_insert_category d s :
  consistent d ->
  consistent
    {| users := users d; users_next := users_next d;
       categories := <[categories_next d := Category (SqlStr s)]> (categories d);
       categories_next := categories_next d + 1;
       products := products d; products_next := products_next d |}.
Proof.
  intros [? ? ? ? ? ? ?]. split; cbn; auto with store; try lia.
  apply rows_satisfy_insert; [assumption|]. exists s. reflexivity.
Qed.

Lemma consistent_products d (t : gmap Z product) :
  consistent d ->
  keys_below t (products_next d) ->
  consistent
    {| users := users d; users_next := users_next d;
       categories := categories d; categories_next := categories_next d;
       products := t; products_next := products_next d |}.
Proof. intros [? ? ? ? ? ? ?] ?. split; cbn; auto. Qed.

Lemma consistent_insert_product d row :
  consistent d ->
  consistent
    {| users := users d; users_next := users_next d;
       categories := categories d; categories_next := categories_next d;
       products := <[products_next d := row]> (products d);
       products_next := products_next d + 1 |}.
Proof.
  intros [? ? ? ? ? ? ?]. split; cbn; auto with store; lia.
Qed.

(** Name the outcome of the write the controller under study performs,
    keeping what the table lemmas say about it. *)
Ltac split_write :=
  match goal with
  | |- context [connection.update_where_id ?t ?p ?r] =>
      pose proof (fun n => keys_below_update t n p r);
      pose proof (fun P => rows_satisfy_update P t p r);
      destruct (connection.update_where_id t p r) as [? ?] eqn:?
  | |- context [connection.delete_where_id ?t ?p] =>
      pose proof (fun n => keys_below_delete t n p);
      pose proof (fun P => rows_satisfy_delete P t p);
      destruct (connection.delete_where_id t p) as [? ?] eqn:?
  end;
  cbn [db sent fst snd affectedRows insertId] in *.

Lemma route_consistent (c : call) (w : world) :
  consistent (db w) -> consistent (db (route c w).2).
Proof.
  intros Hc. destruct c as [env req|env req|req|req|req|req|req|req|req|req|req|req];
    cbn [route].
  - unfold authController.register. run_io.
    repeat branch; try exact Hc. apply consistent_users, Hc.
  - unfold authController.login. run_io. repeat branch; exact Hc.
  - unfold categoryController.getCategories. run_io. exact Hc.
  - unfold categoryController.getCategoryById. run_io. repeat branch; exact Hc.
  - unfold categoryController.createCategory.
    fold (category_name_rejected (field req "name")).
    destruct (category_name_rejected (field req "name")) eqn:Hv; [exact Hc|].
    apply category_name_accepted in Hv as (s & -> & _). run_io.
    repeat branch; try exact Hc. apply consistent_insert_category, Hc.
  - unfold categoryController.updateCategory.
    fold (category_name_rejected (field req "name")).
    destruct (isNaN (param req "id")); [exact Hc|].
    destruct (category_name_rejected (field req "name")) eqn:Hv; [exact Hc|].
    apply category_name_accepted in Hv as (s & -> & _). run_io.
    branch; [exact Hc|]. split_write.
    branch; (apply consistent_categories;
      [exact Hc|auto using categories_keys
      |eauto using categories_named; match goal with H : _ |- _ =>
         apply H; [apply Hc|eexists; reflexivity] end]).
  - unfold categoryController.deleteCategory. run_io.
    destruct (isNaN (param req "id")); [exact Hc|]. split_write.
    branch; (apply consistent_categories;
      [exact Hc|auto using categories_keys|auto using categories_named]).
  - unfold productController.getProducts. run_io. exact Hc.
  - unfold productController.getProductById. run_io. repeat branch; exact Hc.
  - unfold productController.createProduct. run_io.
    repeat branch; try exact Hc. apply consistent_insert_product, Hc.
  - unfold productController.updateProduct. run_io.
    do 5 (branch; [exact Hc|]).
    repeat branch; try exact Hc; split_write;
      branch; (apply consistent_products; [exact Hc|auto using products_keys]).
  - unfold productController.deleteProduct. run_io.
    destruct (isNaN (param req "id")); [exact Hc|]. split_write.
    branch; (apply consistent_products; [exact Hc|auto using products_keys]).
Qed.


(** Every world the server reaches is consistent, however the calls
    interleave. *)
Lemma reachable_consistent (w : world) : reachable w -> consistent (db w).
Proof.
  induction 1 as [|A q w Hq Hw IH]; [apply consistent_empty|].
  destruct Hq as [| | | | |name Hv|name id Hv| | | | | |]; run_io;
    try exact IH.
  - apply consistent_users, IH.
  - apply category_name_accepted in Hv as (s & -> & _).
    apply consistent_insert_category, IH.
  - apply category_name_accepted in Hv as (s & -> & _). split_write.
    apply consistent_categories;
      [exact IH|auto using categories_keys
      |match goal with H : _ |- _ =>
         apply H; [apply IH|eexists; reflexivity] end].
  - split_write.
    apply consistent_categories;
      [exact IH|auto using categories_keys|auto using categories_named].
  - apply consistent_insert_product, IH.
  - split_write. apply consistent_products; [exact IH|auto using products_keys].
  - split_write. apply consistent_products; [exact IH|auto using products_keys].
Qed.

(** An action that leaves a reachable world reachable. *)
Definition keeps_reachable {A : Type} (m : io A) : Prop :=
  forall w, reachable w -> reachable (m w).2.

Lemma keeps_ret {A : Type} (a : A) : keeps_reachable (mret a).
Proof. intros w Hw. exact Hw. Qed.

Lemma keeps_throw {A : Type} (err : string) : keeps_reachable (throw (A := A) err).
Proof. intros w Hw. exact Hw. Qed.

Lemma keeps_bind {A B : Type} (m : io A) (k : A -> io B) :
  keeps_reachable m -> (forall a, keeps_reachable (k a)) -> keeps_reachable (m ≫= k).
Proof.
  intros Hm Hk w Hw. specialize (Hm w Hw).
  cbv [mbind io_bind]. destruct (m w) as [[a|err] w']; [apply Hk|]; exact Hm.
Qed.

Lemma keeps_try_catch {A : Type} (m : io A) (handler : string -> io A) :
  keeps_reachable m -> (forall err, keeps_reachable (handler err)) ->
  keeps_reachable (try_catch m handler).
Proof.
  intros Hm Hh w Hw. specialize (Hm w Hw).
  unfold try_catch. destruct (m w) as [[a|err] w']; [|apply Hh]; exact Hm.
Qed.

Lemma keeps_sends {A : Type} (q : io A) : sends q -> keeps_reachable q.
Proof. intros Hq w Hw. apply reachable_statement; assumption. Qed.

Ltac keeps_reachable :=
  repeat first
    [ apply keeps_ret
    | apply keeps_throw
    | apply keeps_try_catch; [|intros ?]
    | apply keeps_bind; [|intros ?]
    | apply keeps_sends; constructor; assumption
    | match goal with
      | |- keeps_reachable (if ?b then _ else _) => destruct b eqn:?
      | |- keeps_reachable (match ?x with _ => _ end) => destruct x eqn:?
      | |- keeps_reachable (let (_, _) := ?x in _) => destruct x eqn:?
      end ].

(** Serving a call from its first statement to its last leaves a
    reachable world reachable. *)
Lemma reachable_call (c : call) (w : world) :
  reachable w -> reachable (snd (route c w)).
Proof.
  revert w. change (keeps_reachable (route c)).
  destruct c; cbn [route];
    unfold authController.register, authController.login,
      categoryController.getCategories, categoryController.getCategoryById,
      categoryController.createCategory, categoryController.updateCategory,
      categoryController.deleteCategory, productController.getProducts,
      productController.getProductById, productController.createProduct,
      productController.updateProduct, productController.deleteProduct,
      categoryController.categoryExists, productController.categoryExists,
      internal_server_error, bcrypt.hash, bcrypt.compare, jwt.sign;
    keeps_reachable.
Qed.

(** The server answers every call: no controller lets a rejection
    escape. *)
Lemma route_resolves (c : call) (w : world) : exists r, (route c w).1 = Resolved r.
Proof.
  destruct c; cbn [route];
    unfold authController.register, authController.login,
      categoryController.getCategories, categoryController.getCategoryById,
      categoryController.createCategory, categoryController.updateCategory,
      categoryController.deleteCategory, productController.getProducts,
      productController.getProductById, productController.createProduct,
      productController.updateProduct, productController.deleteProduct;
    run_io; repeat first [branch | split_write]; eauto.
Qed.

(** ** Claims about the controllers *)

Import categoryController productController authController.

Lemma reachable_after_runner : reachable after_runner.
Proof. apply reachable_call, reachable_call, reachable_initial. Qed.

(** C8. For an id that is not numeric ([isNaN] holds of the route
    parameter), getById, update and delete of categories and of products
    answer 400 with "Invalid category ID", respectively "Invalid product
    ID", and leave the world as it was: no table changes and no statement
    is sent. *)
Theorem non_numeric_id_is_rejected (req : request) (w : world) :
  isNaN (param req "id") = true ->
  getCategoryById req w = (Resolved (Response 400 (error "Invalid category ID")), w)
  /\ updateCategory req w = (Resolved (Response 400 (error "Invalid category ID")), w)
  /\ deleteCategory req w = (Resolved (Response 400 (error "Invalid category ID")), w)
  /\ getProductById req w = (Resolved (Response 400 (error "Invalid product ID")), w)
  /\ updateProduct req w = (Resolved (Response 400 (error "Invalid product ID")), w)
  /\ deleteProduct req w = (Resolved (Response 400 (error "Invalid product ID")), w).
Proof.
  intros H.
  unfold getCategoryById, updateCategory, deleteCategory,
    getProductById, updateProduct, deleteProduct.
  rewrite H. repeat split.
Qed.

Lemma non_numeric_id_is_rejected_witness :
  getCategoryById (with_id (js "abc") ∅) after_runner
  = (Resolved (Response 400 (error "Invalid category ID")), after_runner)
  /\ deleteProduct (with_id (js "abc") ∅) after_runner
     = (Resolved (Response 400 (error "Invalid product ID")), after_runner).
Proof.
  destruct (non_numeric_id_is_rejected (with_id (js "abc") ∅) after_runner)
    as (H1 & _ & _ & _ & _ & H6); [vm_compute; reflexivity|].
  split; [exact H1|exact H6].
Defined.

(** C9. For a numeric id, deleting a category or a product answers 404
    exactly when the DELETE affects zero rows, and 204 without content when
    a row had that id, which is then gone from its table; after such a
    delete, getById on the same id answers 404. *)
Theorem delete_not_found_or_no_content (req : request) (w : world) :
  isNaN (param req "id") = false ->
  let id := escape (param req "id") in
  ((deleteCategory req w).1 = Resolved (Response 404 (error "Category not found"))
   <-> affectedRows (connection.delete_where_id (categories (db w)) id).1 = 0)
  /\ (connection.where_id (categories (db w)) id = [] ->
      (deleteCategory req w).1 = Resolved (Response 404 (error "Category not found"))
      /\ db (deleteCategory req w).2 = db w)
  /\ (forall k row rest,
        connection.where_id (categories (db w)) id = (k, row) :: rest ->
        (deleteCategory req w).1 = Resolved (Response 204 no_content)
        /\ categories (db (deleteCategory req w).2) = delete k (categories (db w))
        /\ (getCategoryById req (deleteCategory req w).2).1
           = Resolved (Response 404 (error "Category not found")))
  /\ ((deleteProduct req w).1 = Resolved (Response 404 (error "Product not found"))
      <-> affectedRows (connection.delete_where_id (products (db w)) id).1 = 0)
  /\ (connection.where_id (products (db w)) id = [] ->
      (deleteProduct req w).1 = Resolved (Response 404 (error "Product not found"))
      /\ db (deleteProduct req w).2 = db w)
  /\ (forall k row rest,
        connection.where_id (products (db w)) id = (k, row) :: rest ->
        (deleteProduct req w).1 = Resolved (Response 204 no_content)
        /\ products (db (deleteProduct req w).2) = delete k (products (db w))
        /\ (getProductById req (deleteProduct req w).2).1
           = Resolved (Response 404 (error "Product not found"))).
Proof.
  intros Hid id. subst id.
  unfold deleteCategory, deleteProduct, getCategoryById, getProductById.
  rewrite Hid. run_io. unfold connection.delete_where_id.
  repeat match goal with |- _ /\ _ => split end.
  - destruct (connection.where_id (categories (db w)) _) as [|[k row] rest];
      cbn; split; try reflexivity; discriminate.
  - intros H. rewrite H. cbn. split; [reflexivity|]. destruct (db w); reflexivity.
  - intros k row rest H. rewrite H. cbn.
    rewrite (where_id_delete _ _ _ _ _ H). repeat split.
  - destruct (connection.where_id (products (db w)) _) as [|[k row] rest];
      cbn; split; try reflexivity; discriminate.
  - intros H. rewrite H. cbn. split; [reflexivity|]. destruct (db w); reflexivity.
  - intros k row rest H. rewrite H. cbn.
    rewrite (where_id_delete _ _ _ _ _ H). repeat split.
Qed.

Lemma delete_not_found_or_no_content_witness :
  (deleteProduct (with_id (js "1") ∅) after_runner).1 = Resolved (Response 204 no_content)
  /\ products (db (deleteProduct (with_id (js "1") ∅) after_runner).2) = ∅
  /\ (getProductById (with_id (js "1") ∅)
        (deleteProduct (with_id (js "1") ∅) after_runner).2).1
     = Resolved (Response 404 (error "Product not found"))
  /\ (deleteCategory (with_id (js "2") ∅) after_runner).1
     = Resolved (Response 404 (error "Category not found")).
Proof.
  destruct (delete_not_found_or_no_content (with_id (js "1") ∅) after_runner)
    as (_ & _ & _ & _ & _ & Hp); [vm_compute; reflexivity|].
  destruct (Hp 1 (Product (SqlStr (js "Runner")) (SqlNum (4999 # 100)) (SqlNum 1)) [])
    as (H1 & H2 & H3); [vm_compute; reflexivity|].
  destruct (delete_not_found_or_no_content (with_id (js "2") ∅) after_runner)
    as (_ & Hc & _); [vm_compute; reflexivity|].
  destruct Hc as [H4 _]; [vm_compute; reflexivity|].
  split; [exact H1|]. split; [|split; [exact H3|exact H4]].
  rewrite H2. vm_compute. reflexivity.
Defined.

(** C10, as amended. For an update of a product whose numeric id matches
    no product row and whose fields pass the field checks, the answer is
    404 "Product not found" whatever the category_id is, also one that
    resolves to no category: the product is looked up first, and the
    categories table is not even queried. *)
Theorem updateProduct_not_found_first (req : request) (w : world) :
  isNaN (param req "id") = false ->
  updateProduct_rejects req = false ->
  connection.where_id (products (db w)) (escape (param req "id")) = [] ->
  updateProduct req w
  = (Resolved (Response 404 (error "Product not found")),
     {| db := db w; sent := "SELECT * FROM products WHERE id = ?" :: sent w |}).
Proof.
  intros Hid Hv Hp. unfold updateProduct_rejects in Hv.
  apply orb_false_iff in Hv as [Hv Hv3]. apply orb_false_iff in Hv as [Hv1 Hv2].
  unfold updateProduct. rewrite Hid, Hv1, Hv2, Hv3. run_io. rewrite Hp. reflexivity.
Qed.

Lemma updateProduct_not_found_first_witness :
  (updateProduct (with_id (js "7") {[ "category_id" := JNum 99 ]}) after_runner).1
  = Resolved (Response 404 (error "Product not found")).
Proof.
  rewrite (updateProduct_not_found_first
             (with_id (js "7") {[ "category_id" := JNum 99 ]}) after_runner);
    [reflexivity|vm_compute; reflexivity..].
Defined.

(** The claim C10 as it was stated fails when a field check fails: product
    7 does not exist, category 99 does not exist, the id is numeric, and
    yet the answer is the 400 of the name check, not 404. *)
Lemma updateProduct_not_found_first_counterexample :
  let req := with_id (js "7") {[ "name" := JStr (js "  "); "category_id" := JNum 99 ]} in
  isNaN (param req "id") = false
  /\ connection.where_id (products (db after_runner)) (escape (param req "id")) = []
  /\ field req "category_id" = JNum 99
  /\ connection.where_id (categories (db after_runner)) (escape (JNum 99)) = []
  /\ (updateProduct req after_runner).1
     = Resolved (Response 400 (error "Product name must be a non-empty string."))
  /\ (updateProduct req after_runner).1
     <> Resolved (Response 404 (error "Product not found")).
Proof.
  vm_compute. repeat split; try reflexivity. discriminate.
Qed.

Lemma decimal_digit_is_Some (c : N) (d : Z) :
  decimal_digit c = Some d -> is_decimal_digit c.
Proof.
  unfold decimal_digit, is_decimal_digit.
  destruct ((48 <=? c) && (c <=? 57))%N eqn:E; [|discriminate]. intros _. lia.
Qed.

Lemma scan_digits_whole (s : jsstring) :
  forall acc count v n,
    scan_digits 10 decimal_digit s acc count = (v, n, []) ->
    Forall is_decimal_digit s /\ n = count + Z.of_nat (length s).
Proof.
  induction s as [|c s IH]; intros acc count v n H; cbn [scan_digits] in H.
  - injection H as _ <-. split; [constructor|cbn; lia].
  - destruct (decimal_digit c) as [d|] eqn:E; [|discriminate].
    apply IH in H as [Hs ->]. split.
    + constructor; [eapply decimal_digit_is_Some, E|exact Hs].
    + cbn [length]. lia.
Qed.

Lemma well_formed_positive_integer_digits (s : jsstring) :
  well_formed_positive_integer s = true -> digit_string s.
Proof.
  unfold well_formed_positive_integer.
  destruct (scan_digits 10 decimal_digit s 0 0) as [[v n] [|c r]] eqn:E; [|discriminate].
  intros H. apply scan_digits_whole in E as [Hs ->]. split; [exact Hs|].
  intros ->. cbn in H. discriminate.
Qed.

(** C5, as amended. getCategoryById answers 400 "Invalid category ID" if
    and only if the id is not numeric, that is [isNaN(id)] holds; a
    well-formed positive integer is always numeric.  For a numeric id that
    matches no row it answers 404, and for a numeric id that matches a row
    it answers 200 with that row; so it does for the decimal rendering of
    the key of any row. *)
Theorem getCategoryById_outcomes (req : request) (w : world) :
  let id := param req "id" in
  let r := (getCategoryById req w).1 in
  (r = Resolved (Response 400 (error "Invalid category ID")) <-> isNaN id = true)
  /\ (forall s, id = JStr s -> well_formed_positive_integer s = true ->
                isNaN id = false)
  /\ (isNaN id = false ->
      connection.where_id (categories (db w)) (escape id) = [] ->
      r = Resolved (Response 404 (error "Category not found")))
  /\ (forall k row rest,
        isNaN id = false ->
        connection.where_id (categories (db w)) (escape id) = (k, row) :: rest ->
        categories (db w) !! k = Some row
        /\ r = Resolved (Response 200 (category_row k row)))
  /\ (forall k row,
        0 < k -> id = JStr (NumberToString k) -> categories (db w) !! k = Some row ->
        r = Resolved (Response 200 (category_row k row))).
Proof.
  intros id r. subst id r. unfold getCategoryById.
  repeat match goal with |- _ /\ _ => split end.
  - destruct (isNaN (param req "id")); [split; reflexivity|]. run_io.
    split; [|discriminate].
    destruct (connection.where_id _ _) as [|[k row] rest]; discriminate.
  - intros s -> Hs. apply isNaN_digits, well_formed_positive_integer_digits, Hs.
  - intros -> H. run_io. rewrite H. reflexivity.
  - intros k row rest -> H. run_io. rewrite H.
    apply where_id_cons in H as (_ & H & _). split; [exact H|reflexivity].
  - intros k row Hk Hid Hrow. rewrite Hid.
    rewrite isNaN_NumberToString by assumption. run_io.
    rewrite (where_id_lookup _ _ k row); [reflexivity| |exact Hrow].
    apply key_of_NumberToString, Hk.
Qed.

Lemma getCategoryById_outcomes_witness :
  (getCategoryById (with_id (js "1") ∅) after_runner).1
  = Resolved (Response 200 (category_row 1 (Category (SqlStr (js "Shoes")))))
  /\ (getCategoryById (with_id (js "2") ∅) after_runner).1
     = Resolved (Response 404 (error "Category not found"))
  /\ isNaN (JStr (js "2")) = false.
Proof.
  destruct (getCategoryById_outcomes (with_id (js "1") ∅) after_runner)
    as (_ & _ & _ & Hrow & _).
  destruct (Hrow 1 (Category (SqlStr (js "Shoes"))) []) as [_ H1];
    [vm_compute; reflexivity..|].
  destruct (getCategoryById_outcomes (with_id (js "2") ∅) after_runner)
    as (_ & Hwf & H404 & _).
  split; [exact H1|]. split.
  - apply H404; vm_compute; reflexivity.
  - apply (Hwf (js "2")); vm_compute; reflexivity.
Defined.

(** The claim C5 as it was stated fails: "-5" is not a well-formed positive
    integer, yet getCategoryById does not answer 400 for it; it queries the
    store and answers 404. *)
Lemma getCategoryById_outcomes_counterexample :
  let req := with_id (js "-5") ∅ in
  well_formed_positive_integer (js "-5") = false
  /\ (getCategoryById req initial_world).1
     = Resolved (Response 404 (error "Category not found"))
  /\ ~ ((getCategoryById req initial_world).1
        = Resolved (Response 400 (error "Invalid category ID"))
        <-> well_formed_positive_integer (js "-5") = false).
Proof.
  vm_compute. split; [reflexivity|]. split; [reflexivity|].
  intros [_ H]. specialize (H eq_refl). discriminate.
Qed.

(** C6. In an update of a product a field is checked only when its value
    is truthy: an absent field, a price of 0 or an empty name never yields
    the validation error of that field, and when all three fields are
    falsy the field checks pass as a whole. *)
Theorem updateProduct_skips_falsy_fields (req : request) (w : world) :
  let r := (updateProduct req w).1 in
  (truthy (field req "name") = false ->
   r <> Resolved (Response 400 (error "Product name must be a non-empty string.")))
  /\ (truthy (field req "price") = false ->
      r <> Resolved (Response 400 (error "Product price must be a positive number.")))
  /\ (truthy (field req "category_id") = false ->
      r <> Resolved (Response 400 (error "Category ID must be a valid number.")))
  /\ (truthy (field req "name") = false -> truthy (field req "price") = false ->
      truthy (field req "category_id") = false -> updateProduct_rejects req = false)
  /\ truthy JUndefined = false /\ truthy (JNum 0) = false /\ truthy (JStr []) = false.
Proof.
  intros r. subst r. unfold updateProduct, updateProduct_rejects.
  repeat match goal with |- _ /\ _ => split end; try reflexivity.
  - intros ->. run_io. repeat first [branch | split_write]; discriminate.
  - intros ->. run_io. repeat first [branch | split_write]; discriminate.
  - intros ->. run_io. repeat first [branch | split_write]; discriminate.
  - intros -> -> ->. reflexivity.
Qed.

Lemma updateProduct_skips_falsy_fields_witness :
  (updateProduct (with_id (js "1") {[ "price" := JNum 0; "name" := JStr [] ]})
     after_runner).1
  <> Resolved (Response 400 (error "Product price must be a positive number."))
  /\ updateProduct_rejects (with_id (js "1") {[ "price" := JNum 0; "name" := JStr [] ]})
     = false.
Proof.
  destruct (updateProduct_skips_falsy_fields
              (with_id (js "1") {[ "price" := JNum 0; "name" := JStr [] ]}) after_runner)
    as (_ & Hprice & _ & Hall & _).
  split; [apply Hprice|apply Hall]; vm_compute; reflexivity.
Defined.

Lemma where_column_found {A : Type} (table : gmap Z A) (matches : A -> bool) k row :
  table !! k = Some row -> matches row = true ->
  connection.where_column table matches <> [].
Proof.
  intros Hk Hm H. rewrite where_column_nil in H. rewrite (H k row Hk) in Hm.
  discriminate.
Qed.

Lemma length_zero {A : Type} (l : list A) : (Z.of_nat (length l) =? 0) = true <-> l = [].
Proof.
  destruct l; cbn [length]; split; intros H; try reflexivity; try discriminate; lia.
Qed.

Lemma length_positive {A : Type} (l : list A) :
  (0 <? Z.of_nat (length l)) = false <-> l = [].
Proof.
  destruct l; cbn [length]; split; intros H; try reflexivity; try discriminate; lia.
Qed.











(** C4. A successful update of a product (answer 200) overwrites the
    name, the price and the category_id of the row the id selects with the
    values supplied, whatever they are; when none of the three fields is
    supplied the three columns of that row become NULL. *)
Theorem updateProduct_overwrites_all_columns (req : request) (w : world) (r : response) :
  (updateProduct req w).1 = Resolved r ->
  status r = 200 ->
  exists k old,
    connection.where_id (products (db w)) (escape (param req "id")) = [(k, old)]
    /\ products (db w) !! k = Some old
    /\ products (db (updateProduct req w).2)
       = <[k := Product (escape (field req "name")) (escape (field req "price"))
                  (escape (field req "category_id"))]> (products (db w))
    /\ (body req !! "name" = None -> body req !! "price" = None ->
        body req !! "category_id" = None ->
        products (db (updateProduct req w).2) !! k
        = Some (Product SqlNull SqlNull SqlNull)).
Proof.
  unfold updateProduct. run_io. unfold connection.update_where_id.
  repeat branch; try (intros [= <-]; discriminate).
  all: match goal with
       | H : connection.where_id _ _ = (?k, ?row) :: ?rest |- _ =>
           pose proof (where_id_cons _ _ _ _ _ H) as (_ & Hk & ->);
           intros _ _; exists k, row
       end.
  all: (split; [reflexivity|]); (split; [exact Hk|]); (split; [reflexivity|]).
  all: unfold field; intros -> -> ->; apply lookup_insert_eq.
Qed.

Lemma updateProduct_overwrites_all_columns_witness :
  let req := with_id (js "1") ∅ in
  (updateProduct req after_runner).1
  = Resolved (Response 200
                (object [("id", JStr (js "1")); ("name", JUndefined);
                         ("price", JUndefined); ("category_id", JUndefined)]))
  /\ products (db (updateProduct req after_runner).2) !! 1
     = Some (Product SqlNull SqlNull SqlNull).
Proof.
  intros req. split; [vm_compute; reflexivity|].
  destruct (updateProduct_overwrites_all_columns req after_runner
              (Response 200
                 (object [("id", JStr (js "1")); ("name", JUndefined);
                          ("price", JUndefined); ("category_id", JUndefined)])))
    as (k & old & Hsel & _ & _ & Hnull); [vm_compute; reflexivity..|].
  vm_compute in Hsel. injection Hsel as <- _.
  apply Hnull; reflexivity.
Defined.

Lemma categories_where_name_nil (table : gmap Z category) (s : jsstring) :
  rows_satisfy named_by_string table ->
  (connection.where_column table (fun c => sql_eq (category_name c) (SqlStr s)) = [] <->
   forall k c, table !! k = Some c -> category_name c <> SqlStr s).
Proof.
  intros Hnamed. rewrite where_column_nil.
  split; intros H k c Hk; specialize (H k c Hk);
    destruct (Hnamed k c Hk) as [s' Hs']; rewrite Hs' in *;
    cbn [sql_eq] in *; unfold string_eq in *.
  - apply bool_decide_eq_false in H. congruence.
  - apply bool_decide_eq_false. congruence.
Qed.

Lemma getCategoryById_of_key (req : request) (w : world) (k : Z) (row : category) :
  0 < k -> params req !! "id" = Some (NumberToString k) ->
  categories (db w) !! k = Some row ->
  (getCategoryById req w).1 = Resolved (Response 200 (category_row k row)).
Proof.
  intros Hk Hid Hrow. unfold getCategoryById, param. rewrite Hid.
  rewrite isNaN_NumberToString by assumption. run_io.
  rewrite (where_id_lookup _ _ k row); [reflexivity| |exact Hrow].
  apply key_of_NumberToString, Hk.
Qed.

(** C7, as amended. For a category name that passes the name check (a
    string that is not empty and not only white space): if no category row carries exactly
    that name, createCategory answers 201 with an id no row had before, and
    getCategoryById with that id then answers the row of that id, whose
    name is exactly the name supplied; if a row carries exactly that name,
    createCategory answers 400 "Category already exists" and the database
    is unchanged. *)
Theorem createCategory_then_getCategoryById (req : request) (s : jsstring) (w : world) :
  reachable w ->
  field req "name" = JStr s ->
  category_name_rejected (JStr s) = false ->
  ((forall k c, categories (db w) !! k = Some c -> category_name c <> SqlStr s) ->
   let k := categories_next (db w) in
   let w' := (createCategory req w).2 in
   (createCategory req w).1
   = Resolved (Response 201 (object [("id", JNum (inject_Z k)); ("name", JStr s)]))
   /\ categories (db w) !! k = None
   /\ (forall req',
         params req' !! "id" = Some (NumberToString k) ->
         (getCategoryById req' w').1
         = Resolved (Response 200 (category_row k (Category (SqlStr s))))))
  /\ ((exists k, categories (db w) !! k = Some (Category (SqlStr s))) ->
      (createCategory req w).1 = Resolved (Response 400 (error "Category already exists"))
      /\ db (createCategory req w).2 = db w).
Proof.
  intros Hw Hname Hvalid. apply reachable_consistent in Hw.
  pose proof (keys_below_fresh _ _ (categories_keys _ Hw)) as Hfresh.
  pose proof (categories_where_name_nil (categories (db w)) s (categories_named _ Hw))
    as Hnil.
  unfold createCategory. rewrite Hname.
  fold (category_name_rejected (JStr s)). rewrite Hvalid. run_io. cbn [escape].
  split.
  - intros Habsent. apply Hnil in Habsent. rewrite Habsent.
    cbn. split; [reflexivity|]. split; [exact Hfresh|].
    intros req' Hid. apply getCategoryById_of_key.
    + apply (categories_counter _ Hw).
    + exact Hid.
    + cbn. apply lookup_insert_eq.
  - intros [k Hk].
    assert (Hfound : connection.where_column (categories (db w))
                       (fun c => sql_eq (category_name c) (SqlStr s)) <> []).
    { intros E. apply (proj1 Hnil E k _ Hk). reflexivity. }
    clear Hnil. destruct (connection.where_column _ _) as [|row rows]; [congruence|].
    cbn. split; reflexivity.
Qed.

Lemma createCategory_then_getCategoryById_witness :
  (createCategory shoes initial_world).1
  = Resolved (Response 201 (object [("id", JNum 1); ("name", JStr (js "Shoes"))]))
  /\ (getCategoryById (with_id (js "1") ∅) (createCategory shoes initial_world).2).1
     = Resolved (Response 200 (category_row 1 (Category (SqlStr (js "Shoes")))))
  /\ (createCategory shoes after_runner).1
     = Resolved (Response 400 (error "Category already exists")).
Proof.
  destruct (createCategory_then_getCategoryById shoes (js "Shoes") initial_world)
    as [Hnew _]; [apply reachable_initial|vm_compute; reflexivity..|].
  destruct Hnew as (H1 & _ & H2).
  { intros k c Hk. vm_compute in Hk. discriminate. }
  destruct (createCategory_then_getCategoryById shoes (js "Shoes") after_runner)
    as [_ Hold]; [apply reachable_after_runner|vm_compute; reflexivity..|].
  destruct Hold as [H3 _]; [exists 1; vm_compute; reflexivity|].
  split; [exact H1|]. split; [|exact H3].
  apply (H2 (with_id (js "1") ∅)). vm_compute. reflexivity.
Defined.

(** The claim C7 as it was stated, with a valid name being a non-empty
    string, fails for a name of white space: it is a non-empty string, no
    category carries it, and createCategory answers 400 and inserts
    nothing. *)
Lemma createCategory_then_getCategoryById_counterexample :
  let name := js " " in
  let req := {| params := ∅; body := {[ "name" := JStr name ]} |} in
  name <> []
  /\ reachable initial_world
  /\ (forall k c, categories (db initial_world) !! k = Some c ->
                  category_name c <> SqlStr name)
  /\ createCategory req initial_world
     = (Resolved (Response 400
                    (error "Category name is required and must be a non-empty string.")),
        initial_world).
Proof.
  intros name req. split; [discriminate|]. split; [apply reachable_initial|].
  split; [|vm_compute; reflexivity].
  intros k c Hk. vm_compute in Hk. discriminate.
Qed.

(** ** Further properties of the controllers *)

Lemma trimStart_nil (s : jsstring) : trimStart s = [] <-> blank s = true.
Proof.
  unfold blank. induction s as [|c s IH]; cbn [trimStart forallb]; [tauto|].
  destruct (is_white_space c); cbn [andb]; [exact IH|]. split; discriminate.
Qed.

Lemma blank_rev (s : jsstring) : blank (rev s) = blank s.
Proof.
  unfold blank. destruct (forallb is_white_space s) eqn:E.
  - rewrite forallb_forall in *. intros c Hc. apply E, in_rev, Hc.
  - destruct (forallb is_white_space (rev s)) eqn:E'; [|reflexivity].
    rewrite <- E. symmetry. rewrite forallb_forall in *.
    intros c Hc. apply E'. apply in_rev. rewrite rev_involutive. exact Hc.
Qed.

Lemma trimStart_blank (s : jsstring) : blank (trimStart s) = blank s.
Proof.
  unfold blank. induction s as [|c s IH]; cbn [trimStart forallb]; [reflexivity|].
  destruct (is_white_space c) eqn:E; cbn [andb forallb]; [exact IH|].
  rewrite E. reflexivity.
Qed.

Lemma trim_nil (s : jsstring) : trim s = [] <-> blank s = true.
Proof.
  unfold trim, trimEnd. rewrite <- (trimStart_blank s), <- (blank_rev (trimStart s)).
  rewrite <- trimStart_nil. split; intros H.
  - apply (f_equal (@rev N)) in H. rewrite rev_involutive in H. exact H.
  - rewrite H. reflexivity.
Qed.

(** X1. The name check of createCategory and updateCategory accepts
    exactly the strings that have a code unit other than white space: an
    absent name, null, a number, a boolean, the empty string and a blank
    string are rejected.  A rejected name is answered 400 before anything
    is sent to the store. *)
Theorem category_name_check (req : request) (w : world) :
  (category_name_rejected (field req "name") = false <->
   exists s, field req "name" = JStr s /\ blank s = false)
  /\ (category_name_rejected (field req "name") = true ->
      createCategory req w
      = (Resolved (Response 400
                     (error "Category name is required and must be a non-empty string.")),
         w)
      /\ (isNaN (param req "id") = false ->
          updateCategory req w
          = (Resolved (Response 400
                         (error "Category name is required and must be a non-empty string.")),
             w))).
Proof.
  split.
  - split.
    + intros H. apply category_name_accepted in H as (s & Hs & _ & Ht).
      exists s. split; [exact Hs|]. destruct (blank s) eqn:E; [|reflexivity].
      apply trim_nil in E. contradiction.
    + intros (s & -> & Hs).
      unfold category_name_rejected, truthy, typeof_not_string, trim_length_is_zero.
      destruct (trim s) as [|c' t] eqn:E; [apply trim_nil in E; congruence|].
      destruct s as [|c s]; [discriminate|].
      rewrite bool_decide_eq_false_2 by discriminate. reflexivity.
  - intros H. unfold createCategory, updateCategory.
    fold (category_name_rejected (field req "name")). rewrite H.
    split; [reflexivity|]. intros ->. reflexivity.
Qed.

Lemma category_name_check_witness :
  createCategory {| params := ∅; body := {[ "name" := JStr (js "  ") ]} |} after_runner
  = (Resolved (Response 400
                 (error "Category name is required and must be a non-empty string.")),
     after_runner)
  /\ category_name_rejected (JStr (js "Shoes")) = false.
Proof.
  destruct (category_name_check
              {| params := ∅; body := {[ "name" := JStr (js "  ") ]} |} after_runner)
    as [_ Hrej].
  destruct Hrej as [H1 _]; [vm_compute; reflexivity|].
  destruct (category_name_check shoes after_runner) as [[_ Hok] _].
  split; [exact H1|]. apply Hok. exists (js "Shoes"). split; vm_compute; reflexivity.
Defined.

(** X2. createProduct reports the first failing field, in the order name,
    price, category_id, and answers before anything is sent to the store.
    A price given as a number passes exactly when it is above 2^-1075,
    half the least positive double, below which JavaScript reads it as 0;
    so does the string "1e-400" fail; a null price is rejected; an absent
    category_id is rejected. *)
Theorem createProduct_first_failing_field (req : request) (w : world) :
  let name := field req "name" in
  let price := field req "price" in
  let category_id := field req "category_id" in
  (category_name_rejected name = true ->
   createProduct req w
   = (Resolved (Response 400
                  (error "Product name is required and must be a non-empty string.")),
      w))
  /\ (category_name_rejected name = false -> isNaN price || le_zero price = true ->
      createProduct req w
      = (Resolved (Response 400 (error "Product price must be a positive number.")), w))
  /\ (category_name_rejected name = false -> isNaN price || le_zero price = false ->
      isNaN category_id = true ->
      createProduct req w
      = (Resolved (Response 400 (error "Category ID must be a valid number.")), w))
  /\ (forall q, price = JNum q ->
                (isNaN price || le_zero price = false <-> (1 # 2 ^ 1075 < q)%Q))
  /\ (price = JStr (js "1e-400") -> isNaN price || le_zero price = true)
  /\ (price = JNull -> isNaN price || le_zero price = true)
  /\ (category_id = JUndefined -> isNaN category_id = true).
Proof.
  intros name price category_id. subst name price category_id.
  unfold createProduct. fold (category_name_rejected (field req "name")).
  repeat match goal with |- _ /\ _ => split end.
  - intros ->. reflexivity.
  - intros -> ->. reflexivity.
  - intros -> -> ->. reflexivity.
  - intros q ->. rewrite <- le_zero_number.
    unfold isNaN, ToNumber. pose proof (binary64_not_NaN q) as Hq.
    destruct (binary64 q); [contradiction|reflexivity..].
  - intros ->. vm_compute. reflexivity.
  - intros ->. reflexivity.
  - intros ->. reflexivity.
Qed.

Lemma createProduct_first_failing_field_witness :
  createProduct
    {| params := ∅;
       body := {[ "name" := JStr (js "Runner"); "price" := JStr (js "1e-400");
                  "category_id" := JNum 1 ]} |} after_shoes
  = (Resolved (Response 400 (error "Product price must be a positive number.")),
     after_shoes).
Proof.
  destruct (createProduct_first_failing_field
              {| params := ∅;
                 body := {[ "name" := JStr (js "Runner");
                            "price" := JStr (js "1e-400");
                            "category_id" := JNum 1 ]} |}
              after_shoes) as (_ & H & _).
  apply H; vm_compute; reflexivity.
Defined.

(** X3. An update of a category with a numeric id and a name that passes
    the name check: when the id selects no row the answer is 404 and the
    database is unchanged; when it selects a row the answer is 200 with the
    id and the name of the request, that row carries the new name, every
    other category, every user and every product is as before, and
    getCategoryById on the same id answers the renamed row. *)
Theorem updateCategory_outcomes (req : request) (s : jsstring) (w : world) :
  isNaN (param req "id") = false ->
  field req "name" = JStr s ->
  category_name_rejected (JStr s) = false ->
  let id := escape (param req "id") in
  let w' := (updateCategory req w).2 in
  (connection.where_id (categories (db w)) id = [] ->
   (updateCategory req w).1 = Resolved (Response 404 (error "Category not found"))
   /\ db w' = db w)
  /\ (forall k old rest,
        connection.where_id (categories (db w)) id = (k, old) :: rest ->
        (updateCategory req w).1
        = Resolved (Response 200 (object [("id", param req "id"); ("name", JStr s)]))
        /\ categories (db w') = <[k := Category (SqlStr s)]> (categories (db w))
        /\ (forall k', k' <> k -> categories (db w') !! k' = categories (db w) !! k')
        /\ users (db w') = users (db w) /\ products (db w') = products (db w)
        /\ (getCategoryById req w').1
           = Resolved (Response 200 (category_row k (Category (SqlStr s))))).
Proof.
  intros Hid Hname Hvalid id w'. subst id w'.
  unfold updateCategory, getCategoryById. rewrite Hid, Hname.
  fold (category_name_rejected (JStr s)). rewrite Hvalid. run_io.
  unfold connection.update_where_id. cbn [escape]. split.
  - intros H. rewrite H. cbn. split; reflexivity.
  - intros k old rest H.
    pose proof (where_id_cons _ _ _ _ _ H) as (Hk & _ & ->). rewrite H.
    change (Z.of_nat (length [(k, old)]) =? 0) with false. cbn beta iota.
    cbn [db sent fst snd]. rewrite H. cbn.
    repeat match goal with |- _ /\ _ => split end; try reflexivity.
    + intros k' Hne. apply lookup_insert_ne. congruence.
    + unfold connection.where_id. rewrite Hk, lookup_insert_eq. reflexivity.
Qed.

Lemma updateCategory_outcomes_witness :
  let req := with_id (js "1") {[ "name" := JStr (js "Boots") ]} in
  (updateCategory req after_runner).1
  = Resolved (Response 200 (object [("id", JStr (js "1")); ("name", JStr (js "Boots"))]))
  /\ (getCategoryById req (updateCategory req after_runner).2).1
     = Resolved (Response 200 (category_row 1 (Category (SqlStr (js "Boots"))))).
Proof.
  intros req.
  destruct (updateCategory_outcomes req (js "Boots") after_runner)
    as [_ Hrow]; [vm_compute; reflexivity..|].
  destruct (Hrow 1 (Category (SqlStr (js "Shoes"))) [])
    as (H1 & _ & _ & _ & _ & H2); [vm_compute; reflexivity|].
  split; [exact H1|exact H2].
Defined.

(** X4. updateCategory does not look at the names of the other rows: when
    two different categories exist, renaming the second to the name of the
    first is answered 200 and leaves both rows with the same name. *)
Theorem updateCategory_allows_duplicate_names
    (req : request) (s : jsstring) (w : world) (k1 k2 : Z) (row2 : category) :
  k1 <> k2 ->
  categories (db w) !! k1 = Some (Category (SqlStr s)) ->
  categories (db w) !! k2 = Some row2 ->
  isNaN (param req "id") = false ->
  key_of (escape (param req "id")) = Some k2 ->
  field req "name" = JStr s ->
  category_name_rejected (JStr s) = false ->
  (updateCategory req w).1
  = Resolved (Response 200 (object [("id", param req "id"); ("name", JStr s)]))
  /\ categories (db (updateCategory req w).2) !! k1 = Some (Category (SqlStr s))
  /\ categories (db (updateCategory req w).2) !! k2 = Some (Category (SqlStr s)).
Proof.
  intros Hne H1 H2 Hid Hkey Hname Hvalid.
  unfold updateCategory. rewrite Hid, Hname.
  fold (category_name_rejected (JStr s)). rewrite Hvalid. run_io.
  unfold connection.update_where_id.
  rewrite (where_id_lookup _ _ k2 row2 Hkey H2).
  change (Z.of_nat (length [(k2, row2)]) =? 0) with false. cbn beta iota.
  cbn [db sent fst snd]. rewrite (where_id_lookup _ _ k2 row2 Hkey H2). cbn.
  split; [reflexivity|]. split.
  - rewrite lookup_insert_ne by congruence. exact H1.
  - apply lookup_insert_eq.
Qed.

Lemma updateCategory_allows_duplicate_names_witness :
  let req := with_id (js "2") {[ "name" := JStr (js "Shoes") ]} in
  categories (db (updateCategory req after_boots).2) !! 1
  = Some (Category (SqlStr (js "Shoes")))
  /\ categories (db (updateCategory req after_boots).2) !! 2
     = Some (Category (SqlStr (js "Shoes"))).
Proof.
  intros req.
  destruct (updateCategory_allows_duplicate_names req (js "Shoes") after_boots 1 2
              (Category (SqlStr (js "Boots"))))
    as (_ & H1 & H2); [lia|vm_compute; reflexivity..|].
  split; [exact H1|exact H2].
Defined.




(** X6. getProductById answers 400 "Invalid product ID" exactly for the
    ids that are not numeric, 404 for a numeric id that selects no row, and
    200 with the row for one that does; none of this changes the database.
    In particular the decimal rendering of the key of a row answers that
    row. *)
Theorem getProductById_outcomes (req : request) (w : world) :
  let id := param req "id" in
  let r := (getProductById req w).1 in
  db (getProductById req w).2 = db w
  /\ (r = Resolved (Response 400 (error "Invalid product ID")) <-> isNaN id = true)
  /\ (isNaN id = false ->
      connection.where_id (products (db w)) (escape id) = [] ->
      r = Resolved (Response 404 (error "Product not found")))
  /\ (forall k row rest,
        isNaN id = false ->
        connection.where_id (products (db w)) (escape id) = (k, row) :: rest ->
        products (db w) !! k = Some row
        /\ r = Resolved (Response 200 (product_row k row)))
  /\ (forall k row,
        0 < k -> id = JStr (NumberToString k) -> products (db w) !! k = Some row ->
        r = Resolved (Response 200 (product_row k row))).
Proof.
  intros id r. subst id r. unfold getProductById.
  repeat match goal with |- _ /\ _ => split end.
  - run_io. repeat branch; reflexivity.
  - destruct (isNaN (param req "id")); [split; reflexivity|]. run_io.
    split; [|discriminate].
    destruct (connection.where_id _ _) as [|[k row] rest]; discriminate.
  - intros -> H. run_io. rewrite H. reflexivity.
  - intros k row rest -> H. run_io. rewrite H.
    apply where_id_cons in H as (_ & H & _). split; [exact H|reflexivity].
  - intros k row Hk Hid Hrow. rewrite Hid.
    rewrite isNaN_NumberToString by assumption. run_io.
    rewrite (where_id_lookup _ _ k row); [reflexivity| |exact Hrow].
    apply key_of_NumberToString, Hk.
Qed.

Lemma getProductById_outcomes_witness :
  (getProductById (with_id (js "1") ∅) after_runner).1
  = Resolved (Response 200
                (product_row 1
                   (Product (SqlStr (js "Runner")) (SqlNum (4999 # 100)) (SqlNum 1))))
  /\ (getProductById (with_id (js "2") ∅) after_runner).1
     = Resolved (Response 404 (error "Product not found")).
Proof.
  destruct (getProductById_outcomes (with_id (js "1") ∅) after_runner)
    as (_ & _ & _ & _ & Hkey).
  destruct (getProductById_outcomes (with_id (js "2") ∅) after_runner)
    as (_ & _ & H404 & _).
  split.
  - apply (Hkey 1); [lia|vm_compute; reflexivity..].
  - apply H404; vm_compute; reflexivity.
Defined.



Lemma update_where_id_none {A : Type} (table : gmap Z A) (p : sqlval) (row : A) h t :
  connection.update_where_id table p row = (h, t) -> affectedRows h = 0 -> t = table.
Proof.
  unfold connection.update_where_id.
  destruct (connection.where_id table p) as [|[k old] rest]; intros [= <- <-];
    [reflexivity|discriminate].
Qed.

Lemma delete_where_id_none {A : Type} (table : gmap Z A) (p : sqlval) h t :
  connection.delete_where_id table p = (h, t) -> affectedRows h = 0 -> t = table.
Proof.
  unfold connection.delete_where_id.
  destruct (connection.where_id table p) as [|[k old] rest]; intros [= <- <-];
    [reflexivity|discriminate].
Qed.

Ltac unfold_controllers :=
  unfold authController.register, authController.login,
    categoryController.getCategories, categoryController.getCategoryById,
    categoryController.createCategory, categoryController.updateCategory,
    categoryController.deleteCategory, productController.getProducts,
    productController.getProductById, productController.createProduct,
    productController.updateProduct, productController.deleteProduct.

(** X8. Every controller keeps to its own table: a call on the auth routes
    leaves categories and products as they are, a call on the category
    routes leaves users and products as they are, a call on the product
    routes leaves users and categories as they are; a login and the four
    GET routes leave the whole database as it is. *)
Theorem controllers_keep_to_their_table (c : call) (w : world) :
  let d := db w in
  let d' := db (route c w).2 in
  match c with
  | POST_auth_register _ _ | POST_auth_login _ _ =>
      categories d' = categories d /\ categories_next d' = categories_next d
      /\ products d' = products d /\ products_next d' = products_next d
  | GET_categories _ | GET_categories_id _ | POST_categories _
  | PUT_categories_id _ | DELETE_categories_id _ =>
      users d' = users d /\ users_next d' = users_next d
      /\ products d' = products d /\ products_next d' = products_next d
  | GET_products _ | GET_products_id _ | POST_products _
  | PUT_products_id _ | DELETE_products_id _ =>
      users d' = users d /\ users_next d' = users_next d
      /\ categories d' = categories d /\ categories_next d' = categories_next d
  end
  /\ (read_only c = true -> d' = d).
Proof.
  intros d d'. subst d d'.
  destruct c; cbn [route read_only]; unfold_controllers; run_io;
    repeat first [branch | split_write];
    (split; [repeat split|try discriminate; reflexivity]).
Qed.

(** X9. A call that is answered with anything but 200, 201 or 204 has
    changed nothing in the database: every 400 and every 404 is free of
    effects. *)
Theorem failed_calls_change_nothing (c : call) (w : world) (r : response) :
  (route c w).1 = Resolved r ->
  status r <> 200 -> status r <> 201 -> status r <> 204 ->
  db (route c w).2 = db w.
Proof.
  destruct c; cbn [route]; unfold_controllers; run_io;
    repeat first [branch | split_write];
    intros [= <-] H200 H201 H204; cbn [status] in *; try congruence;
    try reflexivity;
    repeat match goal with
      | H : connection.update_where_id _ _ _ = _ |- _ =>
          apply update_where_id_none in H; [subst|assumption || lia]
      | H : connection.delete_where_id _ _ = _ |- _ =>
          apply delete_where_id_none in H; [subst|assumption || lia]
      end;
    destruct (db w); reflexivity.
Qed.

Lemma failed_calls_change_nothing_witness :
  db (route (PUT_products_id (with_id (js "1") {[ "category_id" := JNum 99 ]}))
        after_runner).2
  = db after_runner.
Proof.
  apply (failed_calls_change_nothing _ _
           (Response 400 (error "Category does not exist")));
    [vm_compute; reflexivity|cbn; lia..].
Defined.

Lemma controllers_keep_to_their_table_witness :
  db (route (GET_products_id (with_id (js "1") ∅)) after_runner).2 = db after_runner
  /\ products (db (route (DELETE_categories_id (with_id (js "1") ∅)) after_runner).2)
     = products (db after_runner).
Proof.
  destruct (controllers_keep_to_their_table
              (GET_products_id (with_id (js "1") ∅)) after_runner) as [_ Hread].
  destruct (controllers_keep_to_their_table
              (DELETE_categories_id (with_id (js "1") ∅)) after_runner)
    as [(_ & _ & Hp & _) _].
  split; [apply Hread; reflexivity|exact Hp].
Defined.

Lemma category_name_accepted_nonblank (s : jsstring) :
  category_name_rejected (JStr s) = false -> nonblank_name (Category (SqlStr s)).
Proof.
  intros H. apply category_name_accepted in H as (s' & [= <-] & _ & Ht).
  exists s. split; [reflexivity|]. destruct (blank s) eqn:E; [|reflexivity].
  apply trim_nil in E. contradiction.
Qed.

(** X10. In every world the server can reach, however the statements of
    the calls it serves interleave: every category carries a name that is
    a string with a code unit other than white space; and every key of the
    three tables is positive and below the counter of its table, so that
    the next insert never overwrites a row. *)
Theorem reachable_store_invariants (w : world) :
  reachable w ->
  rows_satisfy nonblank_name (categories (db w))
  /\ keys_below (users (db w)) (users_next (db w))
  /\ keys_below (categories (db w)) (categories_next (db w))
  /\ keys_below (products (db w)) (products_next (db w)).
Proof.
  intros Hw.
  assert (Hnb : rows_satisfy nonblank_name (categories (db w))).
  { induction Hw as [|A q w Hq Hw IH].
    - intros k row H. cbn in H. rewrite lookup_empty in H. discriminate.
    - destruct Hq as [| | | | |name Hv|name id Hv| | | | | |]; run_io;
        try exact IH.
      + pose proof Hv as Hv'. apply category_name_accepted in Hv as (s & -> & _).
        apply rows_satisfy_insert; [exact IH|].
        apply category_name_accepted_nonblank, Hv'.
      + pose proof Hv as Hv'. apply category_name_accepted in Hv as (s & -> & _).
        split_write.
        match goal with H : forall P, _ -> _ -> rows_satisfy P _ |- _ =>
          apply H; [exact IH|apply category_name_accepted_nonblank, Hv'] end.
      + split_write.
        match goal with H : forall P, _ -> rows_satisfy P _ |- _ =>
          apply H; exact IH end.
      + split_write. exact IH.
      + split_write. exact IH. }
  apply reachable_consistent in Hw. destruct Hw.
  repeat match goal with |- _ /\ _ => split end; assumption.
Qed.

Lemma reachable_store_invariants_witness :
  rows_satisfy nonblank_name (categories (db after_boots))
  /\ keys_below (categories (db after_boots)) (categories_next (db after_boots)).
Proof.
  destruct (reachable_store_invariants after_boots) as (H1 & _ & H2 & _).
  - apply reachable_call, reachable_after_runner.
  - split; [exact H1|exact H2].
Defined.

(** X11. deleteCategory does not look at the products: when a product
    refers to an existing category, deleting that category is answered 204,
    the product row stays exactly as it was, and its category_id then
    selects no category. *)
Theorem deleteCategory_leaves_dangling_products
    (req : request) (w : world) (k kp : Z) (c : category) (p : product) :
  isNaN (param req "id") = false ->
  key_of (escape (param req "id")) = Some k ->
  categories (db w) !! k = Some c ->
  products (db w) !! kp = Some p ->
  key_of (product_category_id p) = Some k ->
  let w' := (deleteCategory req w).2 in
  (deleteCategory req w).1 = Resolved (Response 204 no_content)
  /\ products (db w') !! kp = Some p
  /\ connection.where_id (categories (db w')) (product_category_id p) = [].
Proof.
  intros Hid Hkey Hc Hp Href w'. subst w'.
  unfold deleteCategory. rewrite Hid. run_io. unfold connection.delete_where_id.
  rewrite (where_id_lookup _ _ k c Hkey Hc). cbn.
  split; [reflexivity|]. split; [exact Hp|].
  unfold connection.where_id. rewrite Href, lookup_delete_eq. reflexivity.
Qed.

Lemma deleteCategory_leaves_dangling_products_witness :
  let w' := (deleteCategory (with_id (js "1") ∅) after_runner).2 in
  products (db w') !! 1
  = Some (Product (SqlStr (js "Runner")) (SqlNum (4999 # 100)) (SqlNum 1))
  /\ connection.where_id (categories (db w')) (SqlNum 1) = [].
Proof.
  destruct (deleteCategory_leaves_dangling_products (with_id (js "1") ∅) after_runner
              1 1 (Category (SqlStr (js "Shoes")))
              (Product (SqlStr (js "Runner")) (SqlNum (4999 # 100)) (SqlNum 1)))
    as (_ & H1 & H2); [vm_compute; reflexivity..|].
  split; [exact H1|exact H2].
Defined.




(** X13. Deleting twice: when a numeric id selects a row, the first delete
    is answered 204 and a second delete with the same id is answered 404
    and changes nothing; so for categories and for products. *)
Theorem delete_twice (req : request) (w : world) :
  isNaN (param req "id") = false ->
  (connection.where_id (categories (db w)) (escape (param req "id")) <> [] ->
   let w' := (deleteCategory req w).2 in
   (deleteCategory req w).1 = Resolved (Response 204 no_content)
   /\ (deleteCategory req w').1 = Resolved (Response 404 (error "Category not found"))
   /\ db (deleteCategory req w').2 = db w')
  /\ (connection.where_id (products (db w)) (escape (param req "id")) <> [] ->
      let w' := (deleteProduct req w).2 in
      (deleteProduct req w).1 = Resolved (Response 204 no_content)
      /\ (deleteProduct req w').1 = Resolved (Response 404 (error "Product not found"))
      /\ db (deleteProduct req w').2 = db w').
Proof.
  intros Hid. unfold deleteCategory, deleteProduct. rewrite Hid. run_io.
  unfold connection.delete_where_id. split; intros Hne.
  - destruct (connection.where_id (categories (db w)) _) as [|[k row] rest] eqn:E;
      [congruence|].
    cbn. rewrite (where_id_delete _ _ _ _ _ E). cbn. repeat split.
  - destruct (connection.where_id (products (db w)) _) as [|[k row] rest] eqn:E;
      [congruence|].
    cbn. rewrite (where_id_delete _ _ _ _ _ E). cbn. repeat split.
Qed.

Lemma delete_twice_witness :
  let req := with_id (js "1") ∅ in
  (deleteProduct req after_runner).1 = Resolved (Response 204 no_content)
  /\ (deleteProduct req (deleteProduct req after_runner).2).1
     = Resolved (Response 404 (error "Product not found")).
Proof.
  intros req.
  destruct (delete_twice req after_runner) as [_ Hp]; [vm_compute; reflexivity|].
  destruct Hp as (H1 & H2 & _); [vm_compute; discriminate|].
  split; [exact H1|exact H2].
Defined.

Lemma createCategory_new (req : request) (s : jsstring) (w : world) :
  consistent (db w) ->
  field req "name" = JStr s ->
  category_name_rejected (JStr s) = false ->
  (forall k c, categories (db w) !! k = Some c -> category_name c <> SqlStr s) ->
  (createCategory req w).1
  = Resolved (Response 201
                (object [("id", JNum (inject_Z (categories_next (db w))));
                         ("name", JStr s)]))
  /\ categories (db (createCategory req w).2)
     = <[categories_next (db w) := Category (SqlStr s)]> (categories (db w))
  /\ categories_next (db (createCategory req w).2) = categories_next (db w) + 1.
Proof.
  intros Hc Hname Hvalid Habsent.
  apply (categories_where_name_nil _ _ (categories_named _ Hc)) in Habsent.
  unfold createCategory. rewrite Hname.
  fold (category_name_rejected (JStr s)). rewrite Hvalid. run_io. cbn [escape].
  rewrite Habsent. cbn. repeat split.
Qed.

(** X14. Creating twice: after a category was created under a name, a
    second create with the same name is answered 400 "Category already
    exists" and writes nothing, while a create with any other acceptable
    name that no row carries (names are compared exactly) is answered 201
    with the next id. *)
Theorem createCategory_twice (req : request) (s : jsstring) (w : world) :
  reachable w ->
  field req "name" = JStr s ->
  category_name_rejected (JStr s) = false ->
  (forall k c, categories (db w) !! k = Some c -> category_name c <> SqlStr s) ->
  let w' := (createCategory req w).2 in
  (forall req2,
     field req2 "name" = JStr s ->
     (createCategory req2 w').1 = Resolved (Response 400 (error "Category already exists"))
     /\ db (createCategory req2 w').2 = db w')
  /\ (forall req2 s2,
        field req2 "name" = JStr s2 -> category_name_rejected (JStr s2) = false ->
        s2 <> s ->
        (forall k c, categories (db w) !! k = Some c -> category_name c <> SqlStr s2) ->
        (createCategory req2 w').1
        = Resolved (Response 201
                      (object [("id", JNum (inject_Z (categories_next (db w) + 1)));
                               ("name", JStr s2)]))).
Proof.
  intros Hw Hname Hvalid Habsent w'.
  assert (Hc' : consistent (db w')).
  { apply reachable_consistent, (reachable_call (POST_categories req)), Hw. }
  apply reachable_consistent in Hw.
  destruct (createCategory_new req s w Hw Hname Hvalid Habsent) as (_ & Htab & Hnext).
  fold w' in Htab, Hnext. split.
  - intros req2 Hname2.
    assert (Hfound : connection.where_column (categories (db w'))
                       (fun c => sql_eq (category_name c) (SqlStr s)) <> []).
    { apply (where_column_found _ _ (categories_next (db w)) (Category (SqlStr s))).
      - rewrite Htab. apply lookup_insert_eq.
      - cbn. apply bool_decide_eq_true. reflexivity. }
    unfold createCategory. rewrite Hname2.
    fold (category_name_rejected (JStr s)). rewrite Hvalid. run_io. cbn [escape].
    destruct (connection.where_column _ _) as [|row rows]; [congruence|].
    cbn. split; reflexivity.
  - intros req2 s2 Hname2 Hvalid2 Hne Habsent2.
    destruct (createCategory_new req2 s2 w' Hc' Hname2 Hvalid2) as (H & _).
    + intros k c. rewrite Htab.
      destruct (decide (categories_next (db w) = k)) as [<-|Hk].
      * rewrite lookup_insert_eq. intros [= <-]. cbn. congruence.
      * rewrite lookup_insert_ne by assumption. apply Habsent2.
    + rewrite H, Hnext. reflexivity.
Qed.

Lemma createCategory_twice_witness :
  (createCategory shoes (createCategory shoes initial_world).2).1
  = Resolved (Response 400 (error "Category already exists"))
  /\ (createCategory boots (createCategory shoes initial_world).2).1
     = Resolved (Response 201 (object [("id", JNum 2); ("name", JStr (js "Boots"))])).
Proof.
  destruct (createCategory_twice shoes (js "Shoes") initial_world) as [Hsame Hother];
    [apply reachable_initial|vm_compute; reflexivity..| |].
  { intros k c Hk. vm_compute in Hk. discriminate. }
  split.
  - apply (Hsame shoes). vm_compute. reflexivity.
  - apply (Hother boots (js "Boots")); [vm_compute; reflexivity..| |].
    + vm_compute. discriminate.
    + intros k c Hk. vm_compute in Hk. discriminate.
Defined.

(** X15. The listing follows the writes: getCategories answers 200 with
    every row of the table once; after a successful createCategory it lists
    the new record next to exactly the records there were before, and after
    a successful deleteCategory it lists exactly the other records. *)
Theorem getCategories_follows_writes (req req' : request) (s : jsstring) (w : world) :
  (reachable w ->
   field req "name" = JStr s ->
   category_name_rejected (JStr s) = false ->
   (forall k c, categories (db w) !! k = Some c -> category_name c <> SqlStr s) ->
   exists rows,
     (getCategories req' (createCategory req w).2).1
     = Resolved (Response 200 (category_rows rows))
     /\ NoDup rows
     /\ forall k row,
          (k, row) ∈ rows <->
          (k = categories_next (db w) /\ row = Category (SqlStr s))
          \/ categories (db w) !! k = Some row)
  /\ (forall k old rest,
        isNaN (param req "id") = false ->
        connection.where_id (categories (db w)) (escape (param req "id"))
        = (k, old) :: rest ->
        exists rows,
          (getCategories req' (deleteCategory req w).2).1
          = Resolved (Response 200 (category_rows rows))
          /\ NoDup rows
          /\ forall k' row,
               (k', row) ∈ rows <-> k' <> k /\ categories (db w) !! k' = Some row).
Proof.
  split.
  - intros Hw Hname Hvalid Habsent. apply reachable_consistent in Hw.
    destruct (createCategory_new req s w Hw Hname Hvalid Habsent) as (_ & Htab & _).
    exists (map_to_list (categories (db (createCategory req w).2))).
    split; [reflexivity|]. split; [apply NoDup_map_to_list|].
    intros k row. rewrite elem_of_map_to_list, Htab.
    pose proof (keys_below_fresh _ _ (categories_keys _ Hw)) as Hfresh.
    destruct (decide (categories_next (db w) = k)) as [<-|Hk].
    + rewrite lookup_insert_eq, Hfresh. split.
      * intros [= <-]. left. split; reflexivity.
      * intros [[_ ->]|H]; [reflexivity|discriminate].
    + rewrite lookup_insert_ne by assumption. split; [tauto|].
      intros [[-> _]|H]; [congruence|exact H].
  - intros k old rest Hid Hsel.
    exists (map_to_list (categories (db (deleteCategory req w).2))).
    split; [reflexivity|]. split; [apply NoDup_map_to_list|].
    intros k' row. rewrite elem_of_map_to_list.
    unfold deleteCategory. rewrite Hid. run_io. unfold connection.delete_where_id.
    rewrite Hsel. cbn. destruct (decide (k = k')) as [<-|Hk].
    + rewrite lookup_delete_eq. split; [discriminate|]. intros [H _]. congruence.
    + rewrite lookup_delete_ne by assumption. split; [intros H|intros [_ H]]; auto.
Qed.

Lemma getCategories_follows_writes_witness :
  exists rows,
    (getCategories shoes (createCategory boots after_runner).2).1
    = Resolved (Response 200 (category_rows rows))
    /\ (2, Category (SqlStr (js "Boots"))) ∈ rows
    /\ (1, Category (SqlStr (js "Shoes"))) ∈ rows.
Proof.
  destruct (getCategories_follows_writes boots shoes (js "Boots") after_runner)
    as [Hcreate _].
  destruct Hcreate as (rows & Hrun & _ & Hrows);
    [apply reachable_after_runner|vm_compute; reflexivity..| |].
  { intros k c Hk. assert (k = 1) as ->.
    { destruct (decide (k = 1)) as [->|Hne]; [reflexivity|].
      change (categories (db after_runner))
        with (<[1 := Category (SqlStr (js "Shoes"))]> (∅ : gmap Z category)) in Hk.
      rewrite lookup_insert_ne, lookup_empty in Hk by congruence. discriminate. }
    vm_compute in Hk. injection Hk as <-. vm_compute. discriminate. }
  exists rows. split; [exact Hrun|]. split; apply Hrows.
  - left. split; vm_compute; reflexivity.
  - right. vm_compute. reflexivity.
Defined.

Lemma where_id_out_of_range {A : Type} (table : gmap Z A) (next : Z) (p : sqlval) :
  keys_below table next ->
  (forall k, key_of p = Some k -> k <= 0) ->
  connection.where_id table p = [].
Proof.
  intros Hkeys Hp. unfold connection.where_id.
  destruct (key_of p) as [k|]; [|reflexivity].
  destruct (table !! k) as [row|] eqn:E; [|reflexivity].
  assert (Hs : is_Some (table !! k)) by (rewrite E; eauto).
  specialize (Hkeys k Hs). specialize (Hp k eq_refl). lia.
Qed.

(** X16. In a world the server can reach, a numeric id that the store does
    not read as a positive integer (a negative number, zero, a fraction, a
    hexadecimal literal, white space) passes the id check and is then
    answered 404 by getById and by delete, for categories and for products,
    with the database unchanged. *)
Theorem numeric_ids_that_are_no_key_are_not_found (req : request) (w : world) :
  reachable w ->
  isNaN (param req "id") = false ->
  (forall k, key_of (escape (param req "id")) = Some k -> k <= 0) ->
  (getCategoryById req w).1 = Resolved (Response 404 (error "Category not found"))
  /\ (getProductById req w).1 = Resolved (Response 404 (error "Product not found"))
  /\ (deleteCategory req w).1 = Resolved (Response 404 (error "Category not found"))
  /\ db (deleteCategory req w).2 = db w
  /\ (deleteProduct req w).1 = Resolved (Response 404 (error "Product not found"))
  /\ db (deleteProduct req w).2 = db w.
Proof.
  intros Hw Hid Hkey. apply reachable_consistent in Hw.
  pose proof (where_id_out_of_range _ _ _ (categories_keys _ Hw) Hkey) as Hc.
  pose proof (where_id_out_of_range _ _ _ (products_keys _ Hw) Hkey) as Hp.
  unfold getCategoryById, getProductById, deleteCategory, deleteProduct.
  rewrite Hid. run_io. unfold connection.delete_where_id. rewrite Hc, Hp. cbn.
  repeat match goal with |- _ /\ _ => split end; try reflexivity;
    destruct (db w); reflexivity.
Qed.

Lemma numeric_ids_that_are_no_key_are_not_found_witness :
  (getCategoryById (with_id (js "0x1") ∅) after_runner).1
  = Resolved (Response 404 (error "Category not found"))
  /\ (deleteProduct (with_id (js "0x1") ∅) after_runner).1
     = Resolved (Response 404 (error "Product not found")).
Proof.
  destruct (numeric_ids_that_are_no_key_are_not_found (with_id (js "0x1") ∅) after_runner)
    as (H1 & _ & _ & _ & H2 & _).
  - apply reachable_after_runner.
  - vm_compute. reflexivity.
  - intros k Hk. vm_compute in Hk. injection Hk as <-. lia.
  - split; [exact H1|exact H2].
Defined.
